(** * Haskell Code Explorer, VS Code extension: resolution and caching engine

    A shallow embedding of [vscode-extension/src/hce.ts] and of the
    resolution core of [vscode-extension/src/extension.ts], followed by the
    properties of the definition resolver, the reference aggregator, the
    module cache and the location translation.

    Conventions of the embedding.
    - A JavaScript [number] holding an integer is a [Z]; [x - 1] and [x + 1]
      are integer arithmetic and [String(x)] is the decimal numeral.
    - A JavaScript string is a [string]; ["."] is one character in both.
    - [T | undefined] is [option T].  A provider result
      [T | null | undefined] is [ProviderResult T].
    - [Map<string, V>] and string-keyed objects are [gmap string V].
    - The mutable [globalState] and the requests sent over the network are
      threaded through a state monad [M]; the remote service is a
      [Remote], which answers the n-th request of a run.
    - Console output ([console.log], [logDefinition], ...) is not modelled. *)

From Stdlib Require Import ZArith Ascii String DecimalString DecimalPos DecimalZ.
From stdpp Require Import base option list gmap strings fin_maps numbers.

Local Open Scope Z_scope.
Local Open Scope string_scope.

(** ** hce.ts: the data model of the server API *)

Module hce.

Record PackageId := { name : string; version : string }.

Inductive LocatableEntity := Typ | Val | Inst | Mod.

Inductive LocationInfo :=
| ExactLocation (packageId : PackageId) (modulePath moduleName : string)
    (startLine endLine startColumn endColumn : Z)
| ApproximateLocation (packageId : PackageId) (moduleName : string)
    (entity : LocatableEntity) (name : string)
    (haddockAnchorId : option string) (componentId : string)
| UnknownLocation.

Inductive TypeComponent :=
| Text (contents : string)
| TyCon (internalId : string) (name : string).

Record Type_ := {
  components : list TypeComponent;
  componentsExpanded : option (list TypeComponent)
}.

Inductive NameSort := External | Internal.

Record IntentifierInfo := {
  sort : NameSort;
  occName : string;
  demangledOccName : string;
  locationInfo : LocationInfo;
  idType : Type_;
  externalId : option string
}.

Inductive IdentifierOccurrenceSort :=
| ValueId
| TypeId
| ModuleId (contents : LocationInfo).

Record IdentifierOccurrence := {
  internalId : option string;
  isBinder : bool;
  idOccType : option Type_;
  occSort : IdentifierOccurrenceSort
}.

Record ModuleInfo := {
  identifiers : gmap string IntentifierInfo;
  occurrences : gmap string IdentifierOccurrence
}.

Record DefinitionSite := { location : LocationInfo; doc : option string }.

Record HaskellModuleResponse := {
  responseIdentifiers : gmap string IntentifierInfo;
  responseOccurrences : gmap string IdentifierOccurrence
}.

Record GlobalReferences := { count : Z; packageId : string }.

Record IdentifierSrcSpan := {
  modulePath : string;
  line : Z;
  startColumn : Z;
  endColumn : Z
}.

Record ReferenceWithSource := {
  sourceCodeHtml : string;
  idSrcSpan : IdentifierSrcSpan
}.

Record SourceFile := {
  fileName : string;
  references : list ReferenceWithSource
}.

End hce.

(** ** The host's types (vscode) *)

Record Position := { posLine : Z; posCharacter : Z }.

Record Range := { rangeStart : Position; rangeEnd : Position }.

(** The range from one position to another.  As an argument of
    [Location] it records the four numbers of a call
    [new vscode.Range(startLine, startCharacter, endLine, endCharacter)]; the
    constructor itself is [newRange]. *)
Definition mkRange (sl sc el ec : Z) : Range :=
  {| rangeStart := {| posLine := sl; posCharacter := sc |};
     rangeEnd := {| posLine := el; posCharacter := ec |} |}.

(** A call [new vscode.Location(vscode.Uri.file(filePath), new
    vscode.Range(a, b, c, d))], by its arguments: the string given to
    [vscode.Uri.file] and the four numbers given to [vscode.Range].  What the
    host makes of the call is [newLocation]. *)
Record Location := { locationFile : string; locationRange : Range }.

Record TextDocument := {
  uriScheme : string;
  uriPath : string;
  languageId : string
}.

(** A value of type [T | null | undefined], as the providers return it. *)
Inductive ProviderResult (T : Type) :=
| undefined
| null
| value (t : T).
Arguments undefined {T}.
Arguments null {T}.
Arguments value {T} t.

Definition absent {T} (r : ProviderResult T) : bool :=
  match r with value _ => false | _ => true end.

(** A function returning [T | null] seen as a provider result. *)
Definition orNull {T} (o : option T) : ProviderResult T :=
  match o with Some t => value t | None => null end.

(** ** extension.ts: types and constants *)

Record ReferenceWithPackageId := {
  packageIdString : string;
  idSrcSpan : hce.IdentifierSrcSpan
}.

Record PackageInfo := {
  packageId : hce.PackageId;
  packageFolder : string
}.

Definition DEFAULT_HCE_HOST := "http://localhost:8080".
Definition STATIC_URL_PREFIX := "files".
Definition API_URL_PREFIX := "api".
Definition HCE_INDEX_DIRECTORY := ".haskell-code-explorer".

Record GlobalState := {
  haskellModules : gmap string hce.ModuleInfo;
  definitionSites : gmap string hce.DefinitionSite;
  references : gmap string (list ReferenceWithPackageId);
  haskellPackages : list PackageInfo
}.

Definition initialGlobalState : GlobalState :=
  {| haskellModules := ∅; definitionSites := ∅; references := ∅;
     haskellPackages := [] |}.

(** ** Strings *)

(** [String(n)] for an integer [n]. *)
Definition numberToString (n : Z) : string :=
  NilEmpty.string_of_int (Z.to_int n).

(** [parts.join(sep)] *)
Fixpoint join (sep : string) (parts : list string) : string :=
  match parts with
  | [] => ""
  | [p] => p
  | p :: rest => p +:+ sep +:+ join sep rest
  end.

(** [str.replace(/\./g, "%2E")] *)
Fixpoint replaceDots (str : string) : string :=
  match str with
  | EmptyString => EmptyString
  | String c rest =>
      if Ascii.eqb c "."%char then "%2E" +:+ replaceDots rest
      else String c (replaceDots rest)
  end.

Definition fixUrlDots (str : string) : string :=
  if String.eqb str "." then "%20%2E"
  else if String.eqb str ".." then "%20%2E%2E"
  else replaceDots str.

Definition packageIdToString (packageId : hce.PackageId) : string :=
  hce.name packageId +:+ "-" +:+ hce.version packageId.

Definition entityToString (e : hce.LocatableEntity) : string :=
  match e with
  | hce.Typ => "Typ"
  | hce.Val => "Val"
  | hce.Inst => "Inst"
  | hce.Mod => "Mod"
  end.

Definition getDefinitionSiteUri (locationInfo : hce.LocationInfo) : option string :=
  match locationInfo with
  | hce.ApproximateLocation packageId moduleName entity name _ componentId =>
      let name :=
        match entity with hce.Mod => moduleName | _ => name end in
      Some (packageIdToString packageId +:+ "/" +:+ componentId +:+ "/" +:+
            moduleName +:+ "/" +:+ entityToString entity +:+ "/" +:+
            fixUrlDots name)
  | _ => None
  end.

(** A [string | undefined] that passes an [if (!x)] guard: defined and not
    the empty string. *)
Definition truthy (x : option string) : option string :=
  match x with
  | Some EmptyString => None
  | other => other
  end.

(** ** The collaborators of the core *)

(** What the editor and the JavaScript runtime provide. *)
Record Host := {
  (** [vscode.workspace.getConfiguration("haskellCodeExplorer").get("host")] *)
  configuredHost : option string;
  encodeURIComponent : string → string;
  (** [path.relative(from, to)] *)
  pathRelative : string → string → string;
  (** [document.getWordRangeAtPosition(position, WORD_PATTERN)] *)
  wordRangeAtPosition : TextDocument → Position → option Range
}.

(** [err.code] and [err.response.status] of a rejected request. *)
Record AxiosError := { errCode : option string; errStatus : option Z }.

(** The outcome of [axios.get]: a response whose [data] is truthy
    ([Some]) or falsy ([None]), or a rejection. *)
Inductive AxiosResult (T : Type) :=
| Resolved (data : option T)
| Rejected (err : AxiosError).
Arguments Resolved {T} data.
Arguments Rejected {T} err.

(** The remote service, one endpoint per response type.  [endpoint n url]
    is the outcome of the request for [url] when it is the [n]-th request
    (from 0) that the process sends. *)
Record Remote := {
  moduleEndpoint : nat → string → AxiosResult hce.HaskellModuleResponse;
  definitionSiteEndpoint : nat → string → AxiosResult hce.DefinitionSite;
  globalReferencesEndpoint : nat → string → AxiosResult (list hce.GlobalReferences);
  referencesEndpoint : nat → string → AxiosResult (list hce.SourceFile)
}.

(** ** State: the global caches and the requests sent so far *)

Record State := {
  globalState : GlobalState;
  requests : list string
}.

Definition M (A : Type) : Type := State → A * State.

Definition ret {A} (a : A) : M A := λ s, (a, s).

Definition bind {A B} (m : M A) (k : A → M B) : M B :=
  λ s, let (a, s') := m s in k a s'.

Notation "'let*' x := m 'in' k" := (bind m (λ x, k))
  (at level 10, x name, m at level 100, k at level 200).

Definition getGlobalState : M GlobalState := λ s, (globalState s, s).

Definition modifyGlobalState (f : GlobalState → GlobalState) : M unit :=
  λ s, (tt, {| globalState := f (globalState s); requests := requests s |}).

Definition sendRequest (url : string) : M nat :=
  λ s, (length (requests s),
        {| globalState := globalState s; requests := requests s ++ [url] |}).

Fixpoint mapM {A B} (f : A → M B) (l : list A) : M (list B) :=
  match l with
  | [] => ret []
  | x :: rest =>
      let* y := f x in
      let* ys := mapM f rest in
      ret (y :: ys)
  end.

(** [globalState.haskellModules.set(key, moduleInfo)] *)
Definition setHaskellModule (key : string) (moduleInfo : hce.ModuleInfo)
    (g : GlobalState) : GlobalState :=
  {| haskellModules := <[key := moduleInfo]> (haskellModules g);
     definitionSites := definitionSites g;
     references := references g;
     haskellPackages := haskellPackages g |}.

(** [globalState.definitionSites.set(key, definitionSite)] *)
Definition setDefinitionSite (key : string) (definitionSite : hce.DefinitionSite)
    (g : GlobalState) : GlobalState :=
  {| haskellModules := haskellModules g;
     definitionSites := <[key := definitionSite]> (definitionSites g);
     references := references g;
     haskellPackages := haskellPackages g |}.

(** [globalState.references.set(key, refs)] *)
Definition setReferences (key : string) (refs : list ReferenceWithPackageId)
    (g : GlobalState) : GlobalState :=
  {| haskellModules := haskellModules g;
     definitionSites := definitionSites g;
     references := <[key := refs]> (references g);
     haskellPackages := haskellPackages g |}.

(** [new Map(Object.keys(obj).map(k => [k, obj[k]]))] *)
Definition mapFromObject {V} (obj : gmap string V) : gmap string V :=
  list_to_map (map_to_list obj).

(** ** Promise.all

    [Promise.all(promises)] resolves to the array [values] with
    [values[index]] the value of the promise at [index], once every promise
    has settled.  The promises settle one at a time in an order the network
    chooses: [choices] picks, at each step, which of the promises still
    pending settles next (its head modulo the number of pending promises).
    A promise is represented by its index and the value it settles to.
    The array is read once no promise is pending; a slot that was never
    written would be a hole, which [forEach] skips. *)

Fixpoint settle {A} (steps : nat) (choices : list nat)
    (pending : list (nat * A)) (values : list (option A)) : list (option A) :=
  match steps with
  | O => values
  | S steps' =>
      let c := (hd 0%nat choices `mod` length pending)%nat in
      match pending !! c with
      | None => values
      | Some (index, v) =>
          settle steps' (tl choices) (delete c pending)
            (<[index := Some v]> values)
      end
  end.

Definition promiseAll {A} (choices : list nat) (promises : list A) : list A :=
  omap id
    (settle (length promises) choices (imap pair promises)
       (replicate (length promises) None)).

(** [.sort((a, b) => a.relativePath.length - b.relativePath.length)],
    a stable sort. *)
Fixpoint insertByLength {A} (x : A * string) (l : list (A * string)) :
    list (A * string) :=
  match l with
  | [] => [x]
  | y :: rest =>
      if (String.length x.2 <=? String.length y.2)%nat then x :: y :: rest
      else y :: insertByLength x rest
  end.

Definition sortByLength {A} (l : list (A * string)) : list (A * string) :=
  foldr insertByLength [] l.

(** The key of an occurrence: the 1-based coordinates joined with ["-"]. *)
Definition wordRangeToOccurrenceId (wordRange : Range) : string :=
  join "-"
    [ numberToString (posLine (rangeStart wordRange) + 1);
      numberToString (posCharacter (rangeStart wordRange) + 1);
      numberToString (posCharacter (rangeEnd wordRange) + 1) ].

Definition isHaskellFile (document : TextDocument) : bool :=
  String.eqb (uriScheme document) "file" &&
  String.eqb (languageId document) "haskell".

(** [globalState.haskellPackages.find(p => packageIdToString(p.packageId)
    === packageIdString)], then the folder of the package found. *)
Definition packageIdToFolderPath (g : GlobalState) (packageIdString : string) :
    option string :=
  match
    find (λ p, String.eqb (packageIdToString (packageId p)) packageIdString)
      (haskellPackages g)
  with
  | None => None
  | Some packageInfo => Some (packageFolder packageInfo)
  end.

(** The guard [if (!packageFolderPath)] is [truthy]: it rejects a missing
    folder and the empty string alike.  The result is the call of the
    constructors, see [Location]; with the constructors it is
    [constructed]. *)
Definition haskellLocationtoVscodeLocation (g : GlobalState)
    (locationInfo : hce.LocationInfo) : option Location :=
  match locationInfo with
  | hce.ExactLocation packageId modulePath _ startLine endLine startColumn endColumn =>
      match truthy (packageIdToFolderPath g (packageIdToString packageId)) with
      | None => None
      | Some packageFolderPath =>
          Some {| locationFile := packageFolderPath +:+ "/" +:+ modulePath;
                  locationRange :=
                    mkRange (startLine - 1) (startColumn - 1)
                      (endLine - 1) (endColumn - 1) |}
      end
  | _ => None
  end.

Definition haskellReferenceToVscodeLocation (g : GlobalState)
    (reference : ReferenceWithPackageId) : option Location :=
  match truthy (packageIdToFolderPath g (packageIdString reference)) with
  | None => None
  | Some packageFolderPath =>
      let span := idSrcSpan reference in
      Some {| locationFile := packageFolderPath +:+ "/" +:+ hce.modulePath span;
              locationRange :=
                mkRange (hce.line span - 1) (hce.startColumn span - 1)
                  (hce.line span - 1) (hce.endColumn span - 1) |}
  end.

Definition haskellReferencesToVscodeLocations (g : GlobalState)
    (references : list ReferenceWithPackageId) : list Location :=
  omap (haskellReferenceToVscodeLocation g) references.

(** ** The resolution engine *)

Section Engine.

Context (host : Host) (remote : Remote).

Definition getHceHost : string :=
  match truthy (configuredHost host) with
  | Some configured => configured
  | None => DEFAULT_HCE_HOST
  end.

Definition haskellModuleUrl (packageInfo : PackageInfo)
    (document : TextDocument) : string :=
  getHceHost +:+ "/" +:+ STATIC_URL_PREFIX +:+ "/" +:+
  packageIdToString (packageId packageInfo) +:+ "/" +:+
  HCE_INDEX_DIRECTORY +:+ "/" +:+
  encodeURIComponent host
    (encodeURIComponent host
       (pathRelative host (packageFolder packageInfo) (uriPath document))) +:+
  ".json".

(** String concatenation turns a missing URI into ["undefined"]. *)
Definition definitionSiteUrl (locationInfo : hce.LocationInfo) : string :=
  let definitionSiteUri :=
    match getDefinitionSiteUri locationInfo with
    | Some uri => uri
    | None => "undefined"
    end in
  getHceHost +:+ "/" +:+ API_URL_PREFIX +:+ "/definitionSite/" +:+
  definitionSiteUri.

Definition globalReferencesUrl (externalId : string) : string :=
  getHceHost +:+ "/" +:+ API_URL_PREFIX +:+ "/globalReferences/" +:+
  encodeURIComponent host externalId.

Definition referencesUrl (packageId externalId : string) : string :=
  getHceHost +:+ "/" +:+ API_URL_PREFIX +:+ "/references/" +:+
  packageId +:+ "/" +:+ encodeURIComponent host externalId +:+
  "?per_page=500".

(** [fetch]: one [axios.get]; every failure and a falsy [response.data]
    give [undefined].  The three kinds of rejection differ in what is
    logged only. *)
Definition fetch {T} (endpoint : nat → string → AxiosResult T)
    (url : string) : M (option T) :=
  let* n := sendRequest url in
  match endpoint n url with
  | Resolved None => ret None
  | Resolved (Some data) => ret (Some data)
  | Rejected err =>
      if bool_decide (errCode err = Some "ECONNREFUSED") then ret None
      else if bool_decide (errStatus err = Some 404) then ret None
      else ret None
  end.

Definition fetchHaskellModule (packageInfo : PackageInfo)
    (document : TextDocument) : M (option hce.ModuleInfo) :=
  let url := haskellModuleUrl packageInfo document in
  let* data := fetch (moduleEndpoint remote) url in
  match data with
  | None => ret None
  | Some data =>
      let moduleInfo :=
        {| hce.identifiers := mapFromObject (hce.responseIdentifiers data);
           hce.occurrences := mapFromObject (hce.responseOccurrences data) |} in
      let* _ := modifyGlobalState (setHaskellModule (uriPath document) moduleInfo) in
      ret (Some moduleInfo)
  end.

Definition fetchDefinitionSite (locationInfo : hce.LocationInfo) :
    M (option hce.DefinitionSite) :=
  match truthy (getDefinitionSiteUri locationInfo) with
  | None => ret None
  | Some definitionSiteUri =>
      let url := definitionSiteUrl locationInfo in
      let* definitionSite := fetch (definitionSiteEndpoint remote) url in
      match definitionSite with
      | None => ret None
      | Some definitionSite =>
          let* _ := modifyGlobalState
                      (setDefinitionSite definitionSiteUri definitionSite) in
          ret (Some definitionSite)
      end
  end.

Definition fetchReferencesInPackage (packageIdString externalId : string) :
    M (list ReferenceWithPackageId) :=
  let url := referencesUrl packageIdString externalId in
  let* sourceFiles := fetch (referencesEndpoint remote) url in
  match sourceFiles with
  | None => ret []
  | Some sourceFiles =>
      ret (foldl
             (λ references sourceFile,
                let enhancedReferences :=
                  map (λ x, {| packageIdString := packageIdString;
                               idSrcSpan := hce.idSrcSpan x |})
                    (hce.references sourceFile) in
                (references ++ enhancedReferences)%list)
             [] sourceFiles)
  end.

(** The calls [fetchReferencesInPackage(...)] of [globalReferences.map]
    send their requests in the order of [globalReferences]; [choices] is the
    order in which the responses come back. *)
Definition fetchAllReferences (choices : list nat) (externalId : string) :
    M (option (list ReferenceWithPackageId)) :=
  let globalUrl := globalReferencesUrl externalId in
  let* globalReferences := fetch (globalReferencesEndpoint remote) globalUrl in
  match globalReferences with
  | None => ret None
  | Some globalReferences =>
      let* promises :=
        mapM (λ globalReference,
                fetchReferencesInPackage
                  (hce.packageId globalReference) externalId)
          globalReferences in
      let result := promiseAll choices promises in
      let references := foldl (λ references item, (references ++ item)%list) [] result in
      let* _ := modifyGlobalState (setReferences externalId references) in
      ret (Some references)
  end.

Definition lookupPackageInfo (g : GlobalState) (document : TextDocument) :
    option PackageInfo :=
  let results :=
    sortByLength
      (filter (λ x, String.index 0 "../" x.2 = None)
         (map (λ p, (p, pathRelative host (packageFolder p) (uriPath document)))
            (haskellPackages g))) in
  match results with
  | [] => None
  | first :: _ => Some first.1
  end.

(** [fetchHaskellModule] is called without [await].  This is the call
    together with the arrival of its response, when nothing else runs in
    between; the call as it returns is [callFetchModuleInfo], and the
    arrival of the response is [receivePending]. *)
Definition fetchModuleInfo (document : TextDocument) : M unit :=
  let* g := getGlobalState in
  match lookupPackageInfo g document with
  | None => ret tt
  | Some packageInfo =>
      let* _ := fetchHaskellModule packageInfo document in
      ret tt
  end.

Definition maybeFetchModuleInfo (document : TextDocument) : M unit :=
  if negb (isHaskellFile document) then ret tt
  else
    let* g := getGlobalState in
    if bool_decide (is_Some (haskellModules g !! uriPath document)) then ret tt
    else fetchModuleInfo document.

Definition provideDefinitionFromLocationInfo (locationInfo : hce.LocationInfo) :
    M (ProviderResult Location) :=
  match locationInfo with
  | hce.ExactLocation _ _ _ _ _ _ _ =>
      let* g := getGlobalState in
      ret (orNull (haskellLocationtoVscodeLocation g locationInfo))
  | _ =>
      match truthy (getDefinitionSiteUri locationInfo) with
      | None => ret undefined
      | Some definitionSiteUri =>
          let* g := getGlobalState in
          match definitionSites g !! definitionSiteUri with
          | Some cachedDefinitionSite =>
              match hce.location cachedDefinitionSite with
              | hce.ExactLocation _ _ _ _ _ _ _ =>
                  ret (orNull (haskellLocationtoVscodeLocation g
                                 (hce.location cachedDefinitionSite)))
              | _ => ret undefined
              end
          | None =>
              let* definitionSite := fetchDefinitionSite locationInfo in
              match definitionSite with
              | None => ret undefined
              | Some definitionSite =>
                  match hce.location definitionSite with
                  | hce.ExactLocation _ _ _ _ _ _ _ =>
                      let* g := getGlobalState in
                      ret (orNull (haskellLocationtoVscodeLocation g
                                     (hce.location definitionSite)))
                  | _ => ret undefined
                  end
              end
          end
      end
  end.

Definition provideDefinition (document : TextDocument) (position : Position) :
    M (ProviderResult Location) :=
  match wordRangeAtPosition host document position with
  | None => ret undefined
  | Some wordRange =>
      if negb (posLine (rangeStart wordRange) =? posLine (rangeEnd wordRange))%Z
      then ret undefined
      else
        let* g := getGlobalState in
        match haskellModules g !! uriPath document with
        | None =>
            let* _ := fetchModuleInfo document in
            ret undefined
        | Some moduleInfo =>
            let occurrenceId := wordRangeToOccurrenceId wordRange in
            match hce.occurrences moduleInfo !! occurrenceId with
            | None => ret undefined
            | Some occurrence =>
                match hce.occSort occurrence with
                | hce.ModuleId contents =>
                    provideDefinitionFromLocationInfo contents
                | _ =>
                    match truthy (hce.internalId occurrence) with
                    | None => ret undefined
                    | Some internalId =>
                        match hce.identifiers moduleInfo !! internalId with
                        | None => ret undefined
                        | Some identifier =>
                            if hce.isBinder occurrence then ret undefined
                            else
                              provideDefinitionFromLocationInfo
                                (hce.locationInfo identifier)
                        end
                    end
                end
            end
        end
  end.

Definition provideReferences (choices : list nat) (document : TextDocument)
    (position : Position) : M (ProviderResult (list Location)) :=
  match wordRangeAtPosition host document position with
  | None => ret undefined
  | Some wordRange =>
      if negb (posLine (rangeStart wordRange) =? posLine (rangeEnd wordRange))%Z
      then ret undefined
      else
        let* g := getGlobalState in
        match haskellModules g !! uriPath document with
        | None =>
            let* _ := fetchModuleInfo document in
            ret undefined
        | Some moduleInfo =>
            let occurrenceId := wordRangeToOccurrenceId wordRange in
            match hce.occurrences moduleInfo !! occurrenceId with
            | None => ret undefined
            | Some occurrence =>
                match truthy (hce.internalId occurrence) with
                | None => ret undefined
                | Some internalId =>
                    match hce.identifiers moduleInfo !! internalId with
                    | None => ret undefined
                    | Some identifier =>
                        match truthy (hce.externalId identifier) with
                        | None => ret undefined
                        | Some externalId =>
                            match references g !! externalId with
                            | Some cachedReferences =>
                                ret (value (haskellReferencesToVscodeLocations g
                                              cachedReferences))
                            | None =>
                                let* references :=
                                  fetchAllReferences choices externalId in
                                match references with
                                | None => ret undefined
                                | Some references =>
                                    let* g := getGlobalState in
                                    ret (value
                                           (haskellReferencesToVscodeLocations g
                                              references))
                                end
                            end
                        end
                    end
                end
            end
        end
  end.

End Engine.

(** ** Hover *)

(** A [vscode.MarkedString]: a code block [{ language, value }] or a
    [vscode.MarkdownString]. *)
Inductive MarkedString :=
| CodeBlock (language value : string)
| MarkdownString (value : string).

Record Hover := { hoverContents : list MarkedString; hoverRange : Range }.

Definition newline : string := String "010"%char EmptyString.

Definition getTypeSignature (type : hce.Type_) : string :=
  join ""
    (map (λ typeComponent,
            match typeComponent with
            | hce.Text contents => contents
            | hce.TyCon _ name => name
            end)
       (hce.components type)).

Definition getExpressionType (identifier : hce.IntentifierInfo)
    (type : hce.Type_) : string :=
  let name :=
    match truthy (Some (hce.demangledOccName identifier)) with
    | Some demangled => demangled
    | None => hce.occName identifier
    end in
  let signature := getTypeSignature type in
  name +:+ " :: " +:+ signature.

Definition getModuleHoverInfo (location : hce.LocationInfo) : option string :=
  match location with
  | hce.UnknownLocation => None
  | hce.ExactLocation _ modulePath moduleName _ _ _ _ =>
      Some (join "" [ "{- " +:+ modulePath +:+ " -}" +:+ newline;
                      "module "; moduleName ])
  | hce.ApproximateLocation _ moduleName _ _ _ _ =>
      Some (join "" [ ""; "module "; moduleName ])
  end.

(** ** Package manifests *)

(** Characters are code units; a [string] holds those below 256.  Among
    them [\s] matches tab, line feed, vertical tab, form feed, carriage
    return, space and no-break space, and [.] matches everything but line
    feed and carriage return. *)
Definition isWhiteSpace (c : ascii) : bool :=
  Ascii.eqb c "009" || Ascii.eqb c "010" || Ascii.eqb c "011" ||
  Ascii.eqb c "012" || Ascii.eqb c "013" || Ascii.eqb c " " ||
  Ascii.eqb c "160".

Definition isLineTerminator (c : ascii) : bool :=
  Ascii.eqb c "010" || Ascii.eqb c "013".

(** [cabalContents.split(/\r?\n/)] *)
Fixpoint splitLines (str : string) : list string :=
  match str with
  | EmptyString => [EmptyString]
  | String c rest =>
      let continue :=
        match splitLines rest with
        | line :: lines => String c line :: lines
        | [] => [String c EmptyString]
        end in
      if Ascii.eqb c "010" then EmptyString :: splitLines rest
      else if Ascii.eqb c "013" then
        match rest with
        | String c' rest' =>
            if Ascii.eqb c' "010" then EmptyString :: splitLines rest'
            else continue
        | EmptyString => continue
        end
      else continue
  end.

(** [str] without the prefix [prefix], when it starts with it. *)
Fixpoint stripPrefix (prefix str : string) : option string :=
  match prefix, str with
  | EmptyString, _ => Some str
  | String p prefix', String c str' =>
      if Ascii.eqb p c then stripPrefix prefix' str' else None
  | String _ _, EmptyString => None
  end.

Fixpoint spanLength (f : ascii → bool) (str : string) : nat :=
  match str with
  | String c rest => if f c then S (spanLength f rest) else O
  | EmptyString => O
  end.

Fixpoint takeWhile (f : ascii → bool) (str : string) : string :=
  match str with
  | String c rest => if f c then String c (takeWhile f rest) else EmptyString
  | EmptyString => EmptyString
  end.

Fixpoint dropString (n : nat) (str : string) : string :=
  match n, str with
  | O, _ => str
  | S n', String _ rest => dropString n' rest
  | S _, EmptyString => EmptyString
  end.

(** [\s+(.+)] on [rest], whose first [k] characters are white space: the
    greedy [\s+] takes [k] characters, and gives them back one at a time,
    down to one, until [.] matches what follows; the group is then the
    longest run without line terminator. *)
Fixpoint matchAfterSpaces (k : nat) (rest : string) : option string :=
  match k with
  | O => None
  | S k' =>
      match dropString k rest with
      | String c tail =>
          if isLineTerminator c then matchAfterSpaces k' rest
          else Some (takeWhile (λ c, negb (isLineTerminator c)) (String c tail))
      | EmptyString => matchAfterSpaces k' rest
      end
  end.

(** Group 1 of [line.match(/^field\s+(.+)/)], for a [field] of plain
    characters such as ["name:"]. *)
Definition matchField (field line : string) : option string :=
  match stripPrefix field line with
  | None => None
  | Some rest => matchAfterSpaces (spanLength isWhiteSpace rest) rest
  end.

(** The body of [lines.forEach] in [getPackageIdFromCabalContents], on the
    pair of the variables [name] and [version]. *)
Definition scanLine (found : option string * option string) (line : string) :
    option string * option string :=
  match matchField "name:" line with
  | Some name => (Some name, found.2)
  | None =>
      match matchField "version:" line with
      | Some version => (found.1, Some version)
      | None => found
      end
  end.

Definition getPackageIdFromCabalContents (cabalContents : string) :
    option hce.PackageId :=
  let lines := splitLines cabalContents in
  let found := foldl scanLine (None, None) lines in
  match truthy found.1, truthy found.2 with
  | Some name, Some version =>
      Some {| hce.name := name; hce.version := version |}
  | _, _ => None
  end.

(** A [vscode.Uri]. *)
Record Uri := { scheme : string; path : string }.

(** What the workspace provides to [loadPackagesInfo]. *)
Record Workspace := {
  (** the manifests that [vscode.workspace.findFiles] finds *)
  findFiles : list Uri;
  (** [fs.readFileSync(file, "utf8")] *)
  readFileSync : string → string;
  (** [path.dirname(file)] *)
  pathDirname : string → string
}.

Definition readPackageIdFromCabalFile (workspace : Workspace)
    (cabalFile : string) : option hce.PackageId :=
  let contents := readFileSync workspace cabalFile in
  getPackageIdFromCabalContents contents.

(** [globalState.haskellPackages = packages] *)
Definition setHaskellPackages (packages : list PackageInfo) (g : GlobalState) :
    GlobalState :=
  {| haskellModules := haskellModules g;
     definitionSites := definitionSites g;
     references := references g;
     haskellPackages := packages |}.

(** The packages that [loadPackagesInfo] collects. *)
Definition collectPackages (workspace : Workspace) : list PackageInfo :=
  let uris := filter (λ x, scheme x = "file") (findFiles workspace) in
  let cabalFiles := map path uris in
  foldl
    (λ packages cabalFile,
       match readPackageIdFromCabalFile workspace cabalFile with
       | None => packages
       | Some packageId =>
           (packages ++
            [ {| packageId := packageId;
                 packageFolder := pathDirname workspace cabalFile |} ])%list
       end)
    [] cabalFiles.

(** The callback of [findFiles(...).then], placed at the call. *)
Definition loadPackagesInfo (workspace : Workspace) : M unit :=
  modifyGlobalState (setHaskellPackages (collectPackages workspace)).

Section HoverProvider.

Context (host : Host) (remote : Remote).

Definition provideHover (document : TextDocument) (position : Position) :
    M (option Hover) :=
  match wordRangeAtPosition host document position with
  | None => ret None
  | Some wordRange =>
      if negb (posLine (rangeStart wordRange) =? posLine (rangeEnd wordRange))%Z
      then ret None
      else
        let* g := getGlobalState in
        match haskellModules g !! uriPath document with
        | None =>
            let* _ := fetchModuleInfo host remote document in
            ret None
        | Some moduleInfo =>
            let occurrenceId := wordRangeToOccurrenceId wordRange in
            match hce.occurrences moduleInfo !! occurrenceId with
            | None => ret None
            | Some occurrence =>
                match hce.occSort occurrence with
                | hce.ModuleId contents =>
                    match truthy (getModuleHoverInfo contents) with
                    | None => ret None
                    | Some hoverInfo =>
                        ret (Some {| hoverContents := [ CodeBlock "haskell" hoverInfo ];
                                     hoverRange := wordRange |})
                    end
                | _ =>
                    match truthy (hce.internalId occurrence) with
                    | None => ret None
                    | Some internalId =>
                        match hce.identifiers moduleInfo !! internalId with
                        | None => ret None
                        | Some identifier =>
                            let contents :=
                              [ CodeBlock "haskell"
                                  (getExpressionType identifier
                                     (hce.idType identifier)) ] in
                            let contents :=
                              match hce.idOccType occurrence with
                              | Some idOccType =>
                                  (contents ++
                                   [ MarkdownString
                                       ("Instantiated type:" +:+ newline +:+
                                        newline +:+ "```haskell" +:+ newline +:+
                                        getExpressionType identifier idOccType +:+
                                        newline +:+ "```") ])%list
                              | None => contents
                              end in
                            let contents :=
                              match hce.locationInfo identifier with
                              | hce.ApproximateLocation packageId moduleName _ _ _ _ =>
                                  (contents ++
                                   [ MarkdownString
                                       ("Defined in package `" +:+
                                        hce.name packageId +:+ "` module `" +:+
                                        moduleName +:+ "`") ])%list
                              | hce.ExactLocation _ modulePath _ startLine _ startColumn _ =>
                                  (contents ++
                                   [ MarkdownString
                                       ("Defined in `" +:+ modulePath +:+
                                        "` line `" +:+ numberToString startLine +:+
                                        "` column `" +:+
                                        numberToString startColumn +:+ "`") ])%list
                              | hce.UnknownLocation => contents
                              end in
                            ret (Some {| hoverContents := contents;
                                         hoverRange := wordRange |})
                        end
                    end
                end
            end
        end
  end.

End HoverProvider.

(** ** Observing a run *)

Definition result {A} (m : M A) (s : State) : A := (m s).1.

Definition stateAfter {A} (m : M A) (s : State) : State := (m s).2.

(** The requests that running [m] from [s] adds to the network log. *)
Definition sentBy {A} (m : M A) (s : State) : list string :=
  drop (length (requests s)) (requests (stateAfter m s)).

(** What a request yields to its caller: the data of a response with
    truthy data, nothing otherwise. *)
Definition payload {T} (r : AxiosResult T) : option T :=
  match r with
  | Resolved data => data
  | Rejected _ => None
  end.

Definition failed {T} (r : AxiosResult T) : Prop := payload r = None.

(** ** Reference descriptions used by the statements *)

Definition isExact (locationInfo : hce.LocationInfo) : bool :=
  match locationInfo with
  | hce.ExactLocation _ _ _ _ _ _ _ => true
  | _ => false
  end.

(** Every character of [str], with ["."] replaced by its escape. *)
Definition escapeChar (c : ascii) : string :=
  if Ascii.eqb c "."%char then "%2E" else String c EmptyString.

Definition escapeEveryDot (str : string) : string :=
  String.concat "" (map escapeChar (list_ascii_of_string str)).

Fixpoint occursIn (c : ascii) (str : string) : bool :=
  match str with
  | EmptyString => false
  | String c' rest => Ascii.eqb c c' || occursIn c rest
  end.

(** The key of a definition site whose last segment is [segment]. *)
Definition definitionSiteKey (packageId : hce.PackageId)
    (componentId moduleName : string) (entity : hce.LocatableEntity)
    (segment : string) : string :=
  packageIdToString packageId +:+ "/" +:+ componentId +:+ "/" +:+
  moduleName +:+ "/" +:+ entityToString entity +:+ "/" +:+ segment.

(** The 1-based coordinates from which the key of a word range is made. *)
Definition occurrenceCoordinates (wordRange : Range) : Z * Z * Z :=
  (posLine (rangeStart wordRange) + 1,
   posCharacter (rangeStart wordRange) + 1,
   posCharacter (rangeEnd wordRange) + 1).

(** The references of the source files of one package, in the order of the
    response, each tagged with the package. *)
Definition taggedReferences (packageIdString : string)
    (sourceFiles : list hce.SourceFile) : list ReferenceWithPackageId :=
  concat
    (map (λ sourceFile,
            map (λ x, {| packageIdString := packageIdString;
                         idSrcSpan := hce.idSrcSpan x |})
              (hce.references sourceFile))
       sourceFiles).

(** What one package contributes: its tagged references, or nothing when
    its query failed. *)
Definition contribution (packageIdString : string)
    (answer : AxiosResult (list hce.SourceFile)) : list ReferenceWithPackageId :=
  match payload answer with
  | Some sourceFiles => taggedReferences packageIdString sourceFiles
  | None => []
  end.

(** The answer to the query for one package, sent as request number [n]. *)
Definition packageAnswer (host : Host) (remote : Remote) (externalId : string)
    (n : nat) (globalReference : hce.GlobalReferences) :
    AxiosResult (list hce.SourceFile) :=
  referencesEndpoint remote n
    (referencesUrl host (hce.packageId globalReference) externalId).

(** What the packages contribute, when the query for the first of them is
    request number [n]. *)
Definition contributions (host : Host) (remote : Remote) (externalId : string)
    (n : nat) (globalReferences : list hce.GlobalReferences) :
    list (list ReferenceWithPackageId) :=
  imap (λ i globalReference,
          contribution (hce.packageId globalReference)
            (packageAnswer host remote externalId (n + i) globalReference))
    globalReferences.

(** ** A small workspace on which the definitions are run *)

Definition examplePackage : hce.PackageId :=
  {| hce.name := "pkg"; hce.version := "1.0" |}.

Definition exampleExact : hce.LocationInfo :=
  hce.ExactLocation examplePackage "M.hs" "M" 3 3 1 4.

Definition exampleApproximate : hce.LocationInfo :=
  hce.ApproximateLocation examplePackage "M" hce.Val "foo" None "c1".

Definition exampleSpan : hce.IdentifierSrcSpan :=
  {| hce.modulePath := "src/N.hs"; hce.line := 12;
     hce.startColumn := 5; hce.endColumn := 8 |}.

Definition exampleReference : ReferenceWithPackageId :=
  {| packageIdString := "pkg-1.0"; idSrcSpan := exampleSpan |}.

Definition withPackages (packages : list PackageInfo) : GlobalState :=
  {| haskellModules := ∅; definitionSites := ∅; references := ∅;
     haskellPackages := packages |}.

Definition exampleGlobalState : GlobalState :=
  withPackages [ {| packageId := examplePackage; packageFolder := "/work/pkg" |} ].

Definition notFound : AxiosError :=
  {| errCode := None; errStatus := Some 404 |}.

Definition connectionRefused : AxiosError :=
  {| errCode := Some "ECONNREFUSED"; errStatus := None |}.

Definition serverError : AxiosError :=
  {| errCode := None; errStatus := Some 500 |}.

(** A location whose definition site is itself approximate. *)
Definition exampleIndirect : hce.LocationInfo :=
  hce.ApproximateLocation examplePackage "M" hce.Val "bar" None "c1".

Definition exampleModuleResponse : hce.HaskellModuleResponse :=
  {| hce.responseIdentifiers := ∅; hce.responseOccurrences := ∅ |}.

Definition exampleSourceFiles : list hce.SourceFile :=
  [ {| hce.fileName := "src/N.hs";
       hce.references :=
         [ {| hce.sourceCodeHtml := "<b>foo</b>"; hce.idSrcSpan := exampleSpan |} ] |} ].

Definition exampleHost : Host :=
  {| configuredHost := None;
     encodeURIComponent := λ str, str;
     pathRelative := λ from to,
       String.substring (String.length from + 1) (String.length to) to;
     wordRangeAtPosition := λ _ position,
       Some (mkRange (posLine position) 4 (posLine position) 7) |}.

(** A service that refuses the first request of a run, knows the
    definition sites of [foo] (exact) and [bar] (approximate again), and
    has references in [pkg-1.0] but fails for every other package. *)
Definition exampleRemote : Remote :=
  {| moduleEndpoint := λ n _,
       match n with
       | O => Rejected connectionRefused
       | _ => Resolved (Some exampleModuleResponse)
       end;
     definitionSiteEndpoint := λ _ url,
       if String.eqb url
            "http://localhost:8080/api/definitionSite/pkg-1.0/c1/M/Val/foo"
       then Resolved (Some {| hce.location := exampleExact; hce.doc := None |})
       else if String.eqb url
            "http://localhost:8080/api/definitionSite/pkg-1.0/c1/M/Val/bar"
       then Resolved (Some {| hce.location := exampleApproximate; hce.doc := None |})
       else Rejected notFound;
     globalReferencesEndpoint := λ n _,
       match n with
       | O => Resolved (Some [ {| hce.count := 1; hce.packageId := "pkg-1.0" |};
                               {| hce.count := 2; hce.packageId := "dep-0.2" |} ])
       | _ => Rejected serverError
       end;
     referencesEndpoint := λ _ url,
       if String.eqb url
            "http://localhost:8080/api/references/pkg-1.0/foo?per_page=500"
       then Resolved (Some exampleSourceFiles)
       else Rejected serverError |}.

Definition exampleState : State :=
  {| globalState := exampleGlobalState; requests := [] |}.

Definition exampleSite : hce.DefinitionSite :=
  {| hce.location := exampleExact; hce.doc := None |}.

(** The state once the definition site of [foo] is in the cache. *)
Definition exampleWarmState : State :=
  {| globalState :=
       setDefinitionSite "pkg-1.0/c1/M/Val/foo" exampleSite exampleGlobalState;
     requests :=
       [ "http://localhost:8080/api/definitionSite/pkg-1.0/c1/M/Val/foo" ] |}.

Definition exampleDocument : TextDocument :=
  {| uriScheme := "file"; uriPath := "/work/pkg/src/A.hs";
     languageId := "haskell" |}.

Definition exampleIdentifier : hce.IntentifierInfo :=
  {| hce.sort := hce.External; hce.occName := "foo";
     hce.demangledOccName := "foo"; hce.locationInfo := exampleExact;
     hce.idType := {| hce.components := []; hce.componentsExpanded := None |};
     hce.externalId := Some "foo" |}.

(** A binder of a value, at line 10, columns 5 to 8. *)
Definition exampleValueBinder : hce.IdentifierOccurrence :=
  {| hce.internalId := Some "x1"; hce.isBinder := true;
     hce.idOccType := None; hce.occSort := hce.ValueId |}.

(** An occurrence of a module name that is marked as a binder. *)
Definition exampleModuleBinder : hce.IdentifierOccurrence :=
  {| hce.internalId := None; hce.isBinder := true;
     hce.idOccType := None; hce.occSort := hce.ModuleId exampleExact |}.

Definition stateWithOccurrence (occurrence : hce.IdentifierOccurrence) : State :=
  {| globalState :=
       setHaskellModule "/work/pkg/src/A.hs"
         {| hce.identifiers := {[ "x1" := exampleIdentifier ]};
            hce.occurrences := {[ "10-5-8" := occurrence ]} |}
         exampleGlobalState;
     requests := [] |}.

Definition examplePosition : Position := {| posLine := 9; posCharacter := 5 |}.

(** ** Descriptions used by the further properties *)

(** The path from the folder of a package to a document, and whether it
    stays inside the folder. *)
Definition relativePathTo (host : Host) (document : TextDocument)
    (p : PackageInfo) : string :=
  pathRelative host (packageFolder p) (uriPath document).

Definition inside (host : Host) (document : TextDocument) (p : PackageInfo) : Prop :=
  String.index 0 "../" (relativePathTo host document p) = None.

(** The word under the cursor is on one line, the module of the document
    is in the cache and has an occurrence for the word. *)
Definition occurrenceFound (host : Host) (s : State) (document : TextDocument)
    (position : Position) (wordRange : Range) (moduleInfo : hce.ModuleInfo)
    (occurrence : hce.IdentifierOccurrence) : Prop :=
  wordRangeAtPosition host document position = Some wordRange ∧
  posLine (rangeStart wordRange) = posLine (rangeEnd wordRange) ∧
  haskellModules (globalState s) !! uriPath document = Some moduleInfo ∧
  hce.occurrences moduleInfo !! wordRangeToOccurrenceId wordRange = Some occurrence.

(** The occurrence has an internal identifier that the module knows. *)
Definition identifierFound (moduleInfo : hce.ModuleInfo)
    (occurrence : hce.IdentifierOccurrence)
    (identifier : hce.IntentifierInfo) : Prop :=
  ∃ internalId,
    truthy (hce.internalId occurrence) = Some internalId ∧
    hce.identifiers moduleInfo !! internalId = Some identifier.

(** From [s] to [s']: the registry is the same, requests were only added,
    and every cache still has the entries it had, with the same values. *)
Definition grows (s s' : State) : Prop :=
  haskellPackages (globalState s') = haskellPackages (globalState s) ∧
  requests s `prefix_of` requests s' ∧
  haskellModules (globalState s) ⊆ haskellModules (globalState s') ∧
  definitionSites (globalState s) ⊆ definitionSites (globalState s') ∧
  references (globalState s) ⊆ references (globalState s').

(** The value of the last line that matches a field. *)
Definition lastField (field : string) (lines : list string) : option string :=
  list.last (omap (matchField field) lines).

Fixpoint allChars (f : ascii → bool) (str : string) : bool :=
  match str with
  | EmptyString => true
  | String c rest => f c && allChars f rest
  end.

(** A registry in which a package is listed twice. *)
Definition duplicateGlobalState : GlobalState :=
  withPackages
    [ {| packageId := {| hce.name := "dep"; hce.version := "0.2" |};
         packageFolder := "/work/dep" |};
      {| packageId := examplePackage; packageFolder := "/work/pkg" |};
      {| packageId := examplePackage; packageFolder := "/other/pkg" |} ].

(** A [path.relative] for paths without ["."] segments: what follows the
    folder when the path is below it, and a way up otherwise. *)
Definition exampleRelative (from to : string) : string :=
  if String.prefix (from +:+ "/") to
  then String.substring (String.length from + 1) (String.length to) to
  else "../" +:+ to.

Definition nestedHost : Host :=
  {| configuredHost := None;
     encodeURIComponent := λ str, str;
     pathRelative := exampleRelative;
     wordRangeAtPosition := λ _ position,
       Some (mkRange (posLine position) 4 (posLine position) 7) |}.

(** A workspace whose root is a package that contains another package,
    next to a third one. *)
Definition nestedGlobalState : GlobalState :=
  withPackages
    [ {| packageId := {| hce.name := "dep"; hce.version := "0.2" |};
         packageFolder := "/dep" |};
      {| packageId := {| hce.name := "root"; hce.version := "0.1" |};
         packageFolder := "/work" |};
      {| packageId := examplePackage; packageFolder := "/work/pkg" |} ].

(** A location that the service does not know. *)
Definition exampleUnindexed : hce.LocationInfo :=
  hce.ApproximateLocation examplePackage "M" hce.Val "baz" None "c1".

(** An identifier imported from another module, and a use of it at line 10,
    columns 5 to 8. *)
Definition exampleImported : hce.IntentifierInfo :=
  {| hce.sort := hce.External; hce.occName := "foo";
     hce.demangledOccName := ""; hce.locationInfo := exampleApproximate;
     hce.idType :=
       {| hce.components := [ hce.Text "Int -> "; hce.TyCon "t1" "Bool" ];
          hce.componentsExpanded := None |};
     hce.externalId := Some "foo" |}.

Definition exampleUse : hce.IdentifierOccurrence :=
  {| hce.internalId := Some "x2"; hce.isBinder := false;
     hce.idOccType := None; hce.occSort := hce.ValueId |}.

Definition exampleUseModule : hce.ModuleInfo :=
  {| hce.identifiers := {[ "x1" := exampleIdentifier; "x2" := exampleImported ]};
     hce.occurrences := {[ "10-5-8" := exampleUse ]} |}.

Definition stateWithModule (moduleInfo : hce.ModuleInfo) : State :=
  {| globalState :=
       setHaskellModule "/work/pkg/src/A.hs" moduleInfo exampleGlobalState;
     requests := [] |}.

(** The same state after one earlier request. *)
Definition exampleLaterState : State :=
  {| globalState := globalState (stateWithModule exampleUseModule);
     requests := [ "http://localhost:8080/api/globalReferences/bar" ] |}.

(** No module in the cache, one earlier request. *)
Definition exampleOpenState : State :=
  {| globalState := exampleGlobalState;
     requests := [ "http://localhost:8080/api/globalReferences/bar" ] |}.

(** The state in which the extension starts. *)
Definition initialState : State :=
  {| globalState := initialGlobalState; requests := [] |}.

Definition examplePackageInfo : PackageInfo :=
  {| packageId := examplePackage; packageFolder := "/work/pkg" |}.

(** The location of [foo] again, with an anchor. *)
Definition exampleAnchored : hce.LocationInfo :=
  hce.ApproximateLocation examplePackage "M" hce.Val "foo" (Some "v:foo") "c1".


(** A workspace in which the manifest of the package is in another folder,
    next to a manifest without version and a manifest that is not a file. *)
Definition movedWorkspace : Workspace :=
  {| findFiles :=
       [ {| scheme := "file"; path := "/moved/pkg/pkg.cabal" |};
         {| scheme := "file"; path := "/moved/draft/draft.cabal" |};
         {| scheme := "git"; path := "/moved/old/old.cabal" |} ];
     readFileSync := λ file,
       if String.eqb file "/moved/draft/draft.cabal" then "name: draft"
       else "name:    pkg" +:+ newline +:+ "version: 1.0" +:+ newline;
     pathDirname := λ file,
       if String.eqb file "/moved/pkg/pkg.cabal" then "/moved/pkg"
       else "/moved/draft" |}.

(** ** The constructors of the host

    The translators end in
    [new vscode.Location(vscode.Uri.file(filePath), new vscode.Range(a, b, c, d))].
    A [Location] records that call by its arguments; what the host makes of
    them is [newLocation]. *)

(** The result of a call that may throw. *)
Inductive Outcome (A : Type) :=
| returned (a : A)
| thrown.
Arguments returned {A} a.
Arguments thrown {A}.

(** [new vscode.Position(line, character)]: a negative argument is an
    illegal argument. *)
Definition newPosition (line character : Z) : Outcome Position :=
  if (line <? 0)%Z then thrown
  else if (character <? 0)%Z then thrown
  else returned {| posLine := line; posCharacter := character |}.

(** [a.isBefore(b)] *)
Definition isBefore (a b : Position) : bool :=
  if (posLine a <? posLine b)%Z then true
  else if (posLine b <? posLine a)%Z then false
  else (posCharacter a <? posCharacter b)%Z.

(** [new vscode.Range(startLine, startCharacter, endLine, endCharacter)]:
    the two positions are built, and the earlier one becomes the start. *)
Definition newRange (startLine startCharacter endLine endCharacter : Z) :
    Outcome Range :=
  match newPosition startLine startCharacter with
  | thrown => thrown
  | returned start =>
      match newPosition endLine endCharacter with
      | thrown => thrown
      | returned end_ =>
          if isBefore start end_
          then returned {| rangeStart := start; rangeEnd := end_ |}
          else returned {| rangeStart := end_; rangeEnd := start |}
      end
  end.

(** A [vscode.Uri] of scheme [file], by its authority and its path. *)
Record FileUri := { uriAuthority : string; uriFilePath : string }.

Fixpoint replaceBackslashes (str : string) : string :=
  match str with
  | EmptyString => EmptyString
  | String c rest =>
      String (if Ascii.eqb c "\" then "/"%char else c) (replaceBackslashes rest)
  end.

(** [vscode.Uri.file(path)]: on Windows every backslash becomes a slash; a
    path that starts with two slashes has an authority, which runs to the
    next slash; any other path is kept, with a slash in front when it has
    none. *)
Definition uriFile (isWindows : bool) (path : string) : FileUri :=
  let path := if isWindows then replaceBackslashes path else path in
  match path with
  | EmptyString => {| uriAuthority := ""; uriFilePath := "/" |}
  | String c0 rest0 =>
      if Ascii.eqb c0 "/" then
        match rest0 with
        | String c1 rest =>
            if Ascii.eqb c1 "/" then
              let authority := takeWhile (λ c, negb (Ascii.eqb c "/")) rest in
              let remainder := dropString (String.length authority) rest in
              {| uriAuthority := authority;
                 uriFilePath :=
                   match remainder with
                   | EmptyString => "/"
                   | _ => remainder
                   end |}
            else {| uriAuthority := ""; uriFilePath := path |}
        | EmptyString => {| uriAuthority := ""; uriFilePath := path |}
        end
      else {| uriAuthority := ""; uriFilePath := "/" +:+ path |}
  end.

(** A [vscode.Location] as the host holds it. *)
Record HostLocation := { hostUri : FileUri; hostRange : Range }.

(** What the host makes of the call that a [Location] records. *)
Definition newLocation (isWindows : bool) (call : Location) : Outcome HostLocation :=
  let uri := uriFile isWindows (locationFile call) in
  let range := locationRange call in
  match
    newRange (posLine (rangeStart range)) (posCharacter (rangeStart range))
      (posLine (rangeEnd range)) (posCharacter (rangeEnd range))
  with
  | thrown => thrown
  | returned range => returned {| hostUri := uri; hostRange := range |}
  end.

(** A translator with its constructors: nothing ([null]), a location, or
    an exception. *)
Definition constructed (isWindows : bool) (call : option Location) :
    Outcome (option HostLocation) :=
  match call with
  | None => returned None
  | Some call =>
      match newLocation isWindows call with
      | thrown => thrown
      | returned location => returned (Some location)
      end
  end.

(** A path that [vscode.Uri.file] keeps as it is: it starts with one slash,
    not two, and on Windows has no backslash. *)
Definition ordinaryPath (isWindows : bool) (path : string) : bool :=
  match path with
  | String c0 (String c1 _) =>
      Ascii.eqb c0 "/" && negb (Ascii.eqb c1 "/") &&
      (negb isWindows || negb (occursIn "\" path))
  | _ => false
  end.

(** The first position is not after the second. *)
Definition notAfter (line character line' character' : Z) : Prop :=
  (line < line')%Z ∨ (line = line' ∧ character ≤ character')%Z.

(** ** A fetch that is not awaited

    [fetchModuleInfo] calls [fetchHaskellModule] without [await]: when it
    returns, the request has been sent and the rest of [fetchHaskellModule]
    is still to run, when the response arrives. *)

(** The response that a module request is waiting for, and the path under
    which its module will be stored. *)
Record PendingModule := {
  pendingPath : string;
  pendingData : option hce.HaskellModuleResponse
}.

(** From [s] to [s']: the registry is the same, requests were only added,
    and every key of a cache is still a key of it. *)
Definition keeps (s s' : State) : Prop :=
  haskellPackages (globalState s') = haskellPackages (globalState s) ∧
  requests s `prefix_of` requests s' ∧
  dom (haskellModules (globalState s)) ⊆ dom (haskellModules (globalState s')) ∧
  dom (definitionSites (globalState s)) ⊆ dom (definitionSites (globalState s')) ∧
  dom (references (globalState s)) ⊆ dom (references (globalState s')).

Section UnawaitedFetch.

Context (host : Host) (remote : Remote).

(** [fetchHaskellModule] up to its [await]. *)
Definition requestHaskellModule (packageInfo : PackageInfo)
    (document : TextDocument) : M PendingModule :=
  let url := haskellModuleUrl host packageInfo document in
  let* data := fetch (moduleEndpoint remote) url in
  ret {| pendingPath := uriPath document; pendingData := data |}.

(** [fetchHaskellModule] from its [await] on, once the response is there. *)
Definition receiveHaskellModule (pending : PendingModule) :
    M (option hce.ModuleInfo) :=
  match pendingData pending with
  | None => ret None
  | Some data =>
      let moduleInfo :=
        {| hce.identifiers := mapFromObject (hce.responseIdentifiers data);
           hce.occurrences := mapFromObject (hce.responseOccurrences data) |} in
      let* _ := modifyGlobalState (setHaskellModule (pendingPath pending) moduleInfo) in
      ret (Some moduleInfo)
  end.

(** [fetchModuleInfo] as it returns. *)
Definition callFetchModuleInfo (document : TextDocument) :
    M (option PendingModule) :=
  let* g := getGlobalState in
  match lookupPackageInfo host g document with
  | None => ret None
  | Some packageInfo =>
      let* pending := requestHaskellModule packageInfo document in
      ret (Some pending)
  end.

(** [maybeFetchModuleInfo] as it returns. *)
Definition callMaybeFetchModuleInfo (document : TextDocument) :
    M (option PendingModule) :=
  if negb (isHaskellFile document) then ret None
  else
    let* g := getGlobalState in
    if bool_decide (is_Some (haskellModules g !! uriPath document)) then ret None
    else callFetchModuleInfo document.

(** The arrival of the response, if a request was sent. *)
Definition receivePending (pending : option PendingModule) : M unit :=
  match pending with
  | None => ret tt
  | Some pending =>
      let* _ := receiveHaskellModule pending in
      ret tt
  end.

End UnawaitedFetch.

(** A location whose start is after its end. *)
Definition exampleReversed : hce.LocationInfo :=
  hce.ExactLocation examplePackage "M.hs" "M" 5 3 1 4.

(** * Properties *)

(** ** Escaping and keys *)

Lemma replaceDots_escapeEveryDot str : replaceDots str = escapeEveryDot str.
Proof.
  unfold escapeEveryDot.
  induction str as [|c rest IH]; [reflexivity|].
  cbn [replaceDots list_ascii_of_string map]. unfold escapeChar at 1.
  destruct (list_ascii_of_string rest) as [|c' l] eqn:Hl.
  - assert (rest = EmptyString) as ->.
    { destruct rest; [reflexivity | discriminate]. }
    cbn. destruct (Ascii.eqb c "."); reflexivity.
  - rewrite IH. cbn [String.concat map].
    destruct (Ascii.eqb c "."); reflexivity.
Qed.

Lemma occursIn_app c s t : occursIn c (s +:+ t) = occursIn c s || occursIn c t.
Proof.
  induction s as [|c' s IH]; [reflexivity|].
  simpl. rewrite IH. apply orb_assoc.
Qed.

Lemma replaceDots_no_dot str : occursIn "." (replaceDots str) = false.
Proof.
  induction str as [|c rest IH]; [reflexivity|].
  cbn [replaceDots]. destruct (Ascii.eqb c ".") eqn:Hc.
  - rewrite occursIn_app, IH. reflexivity.
  - cbn [occursIn]. rewrite IH, Ascii.eqb_sym, Hc. reflexivity.
Qed.

(** C4: ["."] and [".."] are mapped to two different reserved tokens, every
    other name has each ["."] replaced by ["%2E"] (so that no ["."] is left
    in any key segment), and equal location descriptors have equal keys. *)
Theorem fixUrlDots_escapes (name : string) (l1 l2 : hce.LocationInfo) :
  fixUrlDots "." = "%20%2E" ∧
  fixUrlDots ".." = "%20%2E%2E" ∧
  fixUrlDots "." ≠ fixUrlDots ".." ∧
  (name ≠ "." → name ≠ ".." → fixUrlDots name = escapeEveryDot name) ∧
  occursIn "." (fixUrlDots name) = false ∧
  (l1 = l2 → getDefinitionSiteUri l1 = getDefinitionSiteUri l2).
Proof.
  split; [reflexivity|]. split; [reflexivity|]. split; [discriminate|].
  split; [|split].
  - intros H1 H2. unfold fixUrlDots.
    destruct (String.eqb_spec name "."); [contradiction|].
    destruct (String.eqb_spec name ".."); [contradiction|].
    apply replaceDots_escapeEveryDot.
  - unfold fixUrlDots.
    destruct (String.eqb name "."); [reflexivity|].
    destruct (String.eqb name ".."); [reflexivity|].
    apply replaceDots_no_dot.
  - intros ->. reflexivity.
Qed.

Lemma fixUrlDots_escapes_witness :
  "T.pack" ≠ "." ∧ "T.pack" ≠ ".." ∧ fixUrlDots "T.pack" = "T%2Epack" ∧
  getDefinitionSiteUri exampleApproximate = getDefinitionSiteUri exampleApproximate.
Proof.
  split; [discriminate|]. split; [discriminate|].
  pose proof (fixUrlDots_escapes "T.pack" exampleApproximate exampleApproximate)
    as (_ & _ & _ & H & _ & Hkey).
  split.
  - rewrite H; [reflexivity | discriminate | discriminate].
  - apply Hkey. reflexivity.
Defined.

(** C10: for the entity [Mod] the last segment of the cache key and of the
    request URL is the escaped module name; for every other entity it is
    the escaped name. *)
Theorem getDefinitionSiteUri_last_segment (host : Host)
    (packageId : hce.PackageId) (moduleName : string)
    (entity : hce.LocatableEntity) (name : string)
    (haddockAnchorId : option string) (componentId : string) :
  let locationInfo :=
    hce.ApproximateLocation packageId moduleName entity name haddockAnchorId
      componentId in
  let segment :=
    match entity with
    | hce.Mod => fixUrlDots moduleName
    | _ => fixUrlDots name
    end in
  let key := definitionSiteKey packageId componentId moduleName entity segment in
  getDefinitionSiteUri locationInfo = Some key ∧
  definitionSiteUrl host locationInfo =
    getHceHost host +:+ "/api/definitionSite/" +:+ key.
Proof.
  destruct entity; split; reflexivity.
Qed.

(** ** Occurrence keys *)

Lemma string_of_uint_no_dash d :
  occursIn "-" (NilEmpty.string_of_uint d) = false.
Proof. induction d; simpl; auto. Qed.

Lemma string_of_uint_nonempty d :
  d ≠ Decimal.Nil → NilEmpty.string_of_uint d ≠ "".
Proof. destruct d; simpl; congruence. Qed.

(** A string without ["-"] in front of a ["-"] is determined by the whole. *)
Lemma dash_split u v s t :
  occursIn "-" u = false → occursIn "-" v = false →
  u +:+ "-" +:+ s = v +:+ "-" +:+ t → u = v ∧ s = t.
Proof.
  revert v. induction u as [|a u IH]; intros [|b v] Hu Hv H.
  - injection H as H. change (s = t) in H. auto.
  - injection H as H _. subst b. simpl in Hv. discriminate.
  - injection H as H _. subst a. simpl in Hu. discriminate.
  - injection H as -> H. simpl in Hu, Hv.
    apply orb_false_elim in Hu as [_ Hu]. apply orb_false_elim in Hv as [_ Hv].
    destruct (IH v Hu Hv H) as [-> ->]. auto.
Qed.

Lemma numberToString_inj a b : numberToString a = numberToString b → a = b.
Proof.
  unfold numberToString. intros H.
  apply DecimalZ.to_int_inj.
  apply (f_equal NilEmpty.int_of_string) in H.
  rewrite !NilEmpty.isi in H. congruence.
Qed.

(** The numeral of an integer: an optional sign, then a non-empty run of
    digits. *)
Lemma numberToString_shape n :
  ∃ d, d ≠ Decimal.Nil ∧
    (numberToString n = NilEmpty.string_of_uint d ∨
     numberToString n = String "-" (NilEmpty.string_of_uint d)).
Proof.
  unfold numberToString. destruct n as [|p|p]; simpl.
  - exists Decimal.zero. split; [discriminate | left; reflexivity].
  - exists (Pos.to_uint p). split; [apply DecimalPos.Unsigned.to_uint_nonnil | auto].
  - exists (Pos.to_uint p). split; [apply DecimalPos.Unsigned.to_uint_nonnil | auto].
Qed.

Lemma numeral_dash_split a b s t :
  numberToString a +:+ "-" +:+ s = numberToString b +:+ "-" +:+ t →
  a = b ∧ s = t.
Proof.
  intros H.
  destruct (numberToString_shape a) as (da & Hda & Ha).
  destruct (numberToString_shape b) as (db & Hdb & Hb).
  assert (numberToString a = numberToString b ∧ s = t) as [E ->].
  { pose proof (string_of_uint_no_dash da) as Nda.
    pose proof (string_of_uint_no_dash db) as Ndb.
    pose proof (string_of_uint_nonempty da Hda) as Eda.
    pose proof (string_of_uint_nonempty db Hdb) as Edb.
    destruct Ha as [Ha|Ha], Hb as [Hb|Hb]; rewrite Ha, Hb in *.
    - apply dash_split; assumption.
    - destruct (NilEmpty.string_of_uint da) as [|c u]; [congruence|].
      simpl in H. injection H as -> _. simpl in Nda. discriminate.
    - destruct (NilEmpty.string_of_uint db) as [|c u]; [congruence|].
      simpl in H. injection H as <- _. simpl in Ndb. discriminate.
    - simpl in H. injection H as H.
      destruct (dash_split _ _ _ _ Nda Ndb H) as [-> ->]. auto. }
  split; [apply numberToString_inj; assumption | reflexivity].
Qed.

(** C6: the key of a word range is the three 1-based coordinates, in
    decimal, joined with ["-"]; two ranges have the same key exactly when
    they have the same coordinates. *)
Theorem wordRangeToOccurrenceId_injective (r1 r2 : Range) :
  (let '(line, startColumn, endColumn) := occurrenceCoordinates r1 in
   wordRangeToOccurrenceId r1 =
     numberToString line +:+ "-" +:+ numberToString startColumn +:+ "-" +:+
     numberToString endColumn) ∧
  (wordRangeToOccurrenceId r1 = wordRangeToOccurrenceId r2 ↔
   occurrenceCoordinates r1 = occurrenceCoordinates r2).
Proof.
  split; [reflexivity|]. split.
  - unfold wordRangeToOccurrenceId, occurrenceCoordinates. cbn [join]. intros H.
    apply numeral_dash_split in H as [H1 H].
    apply numeral_dash_split in H as [H2 H].
    apply numberToString_inj in H. congruence.
  - unfold wordRangeToOccurrenceId, occurrenceCoordinates.
    intros [= -> -> ->]. reflexivity.
Qed.

Lemma wordRangeToOccurrenceId_injective_witness :
  wordRangeToOccurrenceId (mkRange 9 4 9 7) = "10-5-8" ∧
  wordRangeToOccurrenceId (mkRange 9 4 9 7) ≠
    wordRangeToOccurrenceId (mkRange 9 45 9 7).
Proof.
  split; [reflexivity|].
  intros H.
  apply (proj1 (proj2 (wordRangeToOccurrenceId_injective _ _))) in H.
  discriminate H.
Defined.

(** ** Package registry and location translation *)

Lemma packageIdToFolderPath_None g packageIdString :
  packageIdToFolderPath g packageIdString = None ↔
  ∀ p, p ∈ haskellPackages g →
    packageIdToString (packageId p) ≠ packageIdString.
Proof.
  unfold packageIdToFolderPath.
  induction (haskellPackages g) as [|q l IH]; simpl.
  - split; [intros _ p Hp; inversion Hp | reflexivity].
  - destruct (String.eqb_spec (packageIdToString (packageId q)) packageIdString)
      as [E|E].
    + split; [discriminate|]. intros H. destruct (H q); [left | exact E].
    + rewrite IH. split.
      * intros H p Hp. apply elem_of_cons in Hp as [->|Hp]; auto.
      * intros H p Hp. apply H. right. exact Hp.
Qed.

Lemma packageIdToFolderPath_Some g packageIdString folder :
  packageIdToFolderPath g packageIdString = Some folder →
  ∃ p, p ∈ haskellPackages g ∧
    packageIdToString (packageId p) = packageIdString ∧
    packageFolder p = folder.
Proof.
  unfold packageIdToFolderPath.
  destruct (find _ _) as [p|] eqn:Hfind; [|discriminate].
  intros [= <-]. apply find_some in Hfind as [Hin Heq].
  exists p. split; [apply list_elem_of_In; exact Hin|].
  split; [apply String.eqb_eq; exact Heq | reflexivity].
Qed.

Lemma truthy_Some folder : folder ≠ "" → truthy (Some folder) = Some folder.
Proof. destruct folder; [congruence | reflexivity]. Qed.

Lemma newRange_ordered (a b c d : Z) :
  (0 ≤ a)%Z → (0 ≤ b)%Z → (0 ≤ c)%Z → (0 ≤ d)%Z → notAfter a b c d →
  newRange a b c d = returned (mkRange a b c d).
Proof.
  intros Ha Hb Hc Hd Horder. unfold newRange, newPosition.
  rewrite (proj2 (Z.ltb_ge a 0)), (proj2 (Z.ltb_ge b 0)),
    (proj2 (Z.ltb_ge c 0)), (proj2 (Z.ltb_ge d 0)) by assumption.
  unfold isBefore, mkRange. cbn [posLine posCharacter].
  destruct Horder as [Hlt|[-> Hle]].
  - rewrite (proj2 (Z.ltb_lt a c)) by assumption. reflexivity.
  - rewrite Z.ltb_irrefl. destruct (Z.ltb_spec b d); [reflexivity|].
    assert (b = d) as -> by lia. reflexivity.
Qed.

Lemma replaceBackslashes_id path :
  occursIn "\" path = false → replaceBackslashes path = path.
Proof.
  induction path as [|c path IH]; [reflexivity|]. cbn [occursIn replaceBackslashes].
  intros H. apply orb_false_elim in H as [Hc H].
  rewrite Ascii.eqb_sym in Hc. rewrite Hc, (IH H). reflexivity.
Qed.

Lemma uriFile_ordinary isWindows path :
  ordinaryPath isWindows path = true →
  uriFile isWindows path = {| uriAuthority := ""; uriFilePath := path |}.
Proof.
  unfold ordinaryPath, uriFile. intros H.
  destruct path as [|c0 [|c1 rest]]; try discriminate.
  apply andb_prop in H as [H Hw]. apply andb_prop in H as [Hc0 Hc1].
  apply negb_true_iff in Hc1.
  assert ((if isWindows
           then replaceBackslashes (String c0 (String c1 rest))
           else String c0 (String c1 rest)) = String c0 (String c1 rest)) as ->.
  { destruct isWindows; [|reflexivity]. cbn [negb orb] in Hw.
    apply negb_true_iff in Hw. apply replaceBackslashes_id. exact Hw. }
  rewrite Hc0, Hc1. reflexivity.
Qed.

Lemma haskellLocationtoVscodeLocation_call g pkg modulePath moduleName
    startLine endLine startColumn endColumn folder :
  packageIdToFolderPath g (packageIdToString pkg) = Some folder →
  folder ≠ "" →
  haskellLocationtoVscodeLocation g
    (hce.ExactLocation pkg modulePath moduleName startLine endLine
       startColumn endColumn) =
    Some {| locationFile := folder +:+ "/" +:+ modulePath;
            locationRange :=
              mkRange (startLine - 1) (startColumn - 1)
                (endLine - 1) (endColumn - 1) |}.
Proof.
  intros Hfolder Hne. unfold haskellLocationtoVscodeLocation.
  rewrite Hfolder, (truthy_Some _ Hne). reflexivity.
Qed.

Lemma newLocation_ordinary isWindows file a b c d :
  ordinaryPath isWindows file = true →
  (0 ≤ a)%Z → (0 ≤ b)%Z → (0 ≤ c)%Z → (0 ≤ d)%Z → notAfter a b c d →
  newLocation isWindows {| locationFile := file; locationRange := mkRange a b c d |} =
    returned {| hostUri := {| uriAuthority := ""; uriFilePath := file |};
                hostRange := mkRange a b c d |}.
Proof.
  intros Hpath Ha Hb Hc Hd Horder. unfold newLocation.
  cbn [locationFile locationRange mkRange rangeStart rangeEnd posLine posCharacter].
  rewrite (uriFile_ordinary _ _ Hpath).
  change (newRange a b c d) with (newRange a b c d).
  rewrite (newRange_ordered a b c d Ha Hb Hc Hd Horder). reflexivity.
Qed.

(** C8, as the code has it: translation returns nothing when the package is
    not in the registry.  When the package is in the registry, with a folder
    such that the folder joined with the module path is an ordinary
    absolute path, and when every coordinate is at least 1 and the start is
    not after the end, the location that the host gets has that joined path
    as its file and every coordinate one less than in the index.  The same
    holds for the source span of a reference. *)
Theorem location_translation (isWindows : bool) (g : GlobalState)
    (pkg : hce.PackageId) (modulePath moduleName : string)
    (startLine endLine startColumn endColumn : Z)
    (reference : ReferenceWithPackageId) (folder : string) :
  let locationInfo :=
    hce.ExactLocation pkg modulePath moduleName startLine endLine
      startColumn endColumn in
  let span := idSrcSpan reference in
  ((∀ p, p ∈ haskellPackages g →
      packageIdToString (packageId p) ≠ packageIdToString pkg) →
   constructed isWindows (haskellLocationtoVscodeLocation g locationInfo) =
     returned None) ∧
  (packageIdToFolderPath g (packageIdToString pkg) = Some folder →
   folder ≠ "" →
   ordinaryPath isWindows (folder +:+ "/" +:+ modulePath) = true →
   (1 ≤ startLine)%Z → (1 ≤ startColumn)%Z → (1 ≤ endLine)%Z → (1 ≤ endColumn)%Z →
   notAfter startLine startColumn endLine endColumn →
   constructed isWindows (haskellLocationtoVscodeLocation g locationInfo) =
     returned
       (Some {| hostUri :=
                  {| uriAuthority := "";
                     uriFilePath := folder +:+ "/" +:+ modulePath |};
                hostRange :=
                  mkRange (startLine - 1) (startColumn - 1)
                    (endLine - 1) (endColumn - 1) |})) ∧
  ((∀ p, p ∈ haskellPackages g →
      packageIdToString (packageId p) ≠ packageIdString reference) →
   constructed isWindows (haskellReferenceToVscodeLocation g reference) =
     returned None) ∧
  (packageIdToFolderPath g (packageIdString reference) = Some folder →
   folder ≠ "" →
   ordinaryPath isWindows (folder +:+ "/" +:+ hce.modulePath span) = true →
   (1 ≤ hce.line span)%Z → (1 ≤ hce.startColumn span)%Z →
   (1 ≤ hce.endColumn span)%Z →
   (hce.startColumn span ≤ hce.endColumn span)%Z →
   constructed isWindows (haskellReferenceToVscodeLocation g reference) =
     returned
       (Some {| hostUri :=
                  {| uriAuthority := "";
                     uriFilePath := folder +:+ "/" +:+ hce.modulePath span |};
                hostRange :=
                  mkRange (hce.line span - 1) (hce.startColumn span - 1)
                    (hce.line span - 1) (hce.endColumn span - 1) |})).
Proof.
  cbn zeta. split; [|split; [|split]].
  - intros H. apply packageIdToFolderPath_None in H.
    unfold haskellLocationtoVscodeLocation. rewrite H. reflexivity.
  - intros Hfolder Hne Hpath H1 H2 H3 H4 Horder.
    rewrite (haskellLocationtoVscodeLocation_call _ _ _ _ _ _ _ _ _ Hfolder Hne).
    unfold constructed. rewrite newLocation_ordinary; [reflexivity|exact Hpath|..];
      try lia.
    destruct Horder as [?|[? ?]]; [left | right]; lia.
  - intros H. apply packageIdToFolderPath_None in H.
    unfold haskellReferenceToVscodeLocation. rewrite H. reflexivity.
  - intros Hfolder Hne Hpath H1 H2 H3 Horder.
    unfold haskellReferenceToVscodeLocation. rewrite Hfolder, (truthy_Some _ Hne).
    unfold constructed. rewrite newLocation_ordinary; [reflexivity|exact Hpath|..];
      try lia.
    right. lia.
Qed.

Lemma location_translation_witness :
  (constructed false (haskellLocationtoVscodeLocation exampleGlobalState exampleExact) =
     returned
       (Some {| hostUri := {| uriAuthority := ""; uriFilePath := "/work/pkg/M.hs" |};
                hostRange := mkRange 2 0 2 3 |}) ∧
   constructed false (haskellReferenceToVscodeLocation exampleGlobalState exampleReference) =
     returned
       (Some {| hostUri :=
                  {| uriAuthority := ""; uriFilePath := "/work/pkg/src/N.hs" |};
                hostRange := mkRange 11 4 11 7 |})) ∧
  (constructed false (haskellLocationtoVscodeLocation (withPackages []) exampleExact) =
     returned None ∧
   constructed false (haskellReferenceToVscodeLocation (withPackages []) exampleReference) =
     returned None).
Proof.
  split.
  - pose proof (location_translation false exampleGlobalState examplePackage "M.hs"
                  "M" 3 3 1 4 exampleReference "/work/pkg")
      as (_ & H1 & _ & H2).
    split.
    + apply (H1 eq_refl); [discriminate | reflexivity | lia | lia | lia | lia|].
      right. lia.
    + apply (H2 eq_refl); [discriminate | reflexivity | cbn; lia | cbn; lia
                           | cbn; lia | cbn; lia].
  - pose proof (location_translation false (withPackages []) examplePackage "M.hs"
                  "M" 3 3 1 4 exampleReference "")
      as (H1 & _ & H2 & _).
    split.
    + apply H1. intros p Hp. inversion Hp.
    + apply H2. intros p Hp. inversion Hp.
Defined.

(** The package is in the registry and the file is the folder joined with
    the module path, yet the start line of the location is not the start
    line of the index minus one: the start of the location is after its
    end, and the constructor of the range puts the earlier position first. *)
Lemma location_translation_counterexample :
  packageIdToFolderPath exampleGlobalState (packageIdToString examplePackage) =
    Some "/work/pkg" ∧
  ∀ isWindows,
    ∃ location,
      constructed isWindows
        (haskellLocationtoVscodeLocation exampleGlobalState exampleReversed) =
        returned (Some location) ∧
      uriFilePath (hostUri location) = "/work/pkg/M.hs" ∧
      posLine (rangeStart (hostRange location)) ≠ (5 - 1)%Z.
Proof.
  split; [reflexivity|].
  intros [|]; eexists; (split; [reflexivity|]);
    (split; [reflexivity | discriminate]).
Qed.

(** ** Running the engine *)

Lemma sentBy_app {A} (m : M A) (s : State) (sent : list string) :
  requests (stateAfter m s) = (requests s ++ sent)%list → sentBy m s = sent.
Proof. unfold sentBy. intros ->. apply drop_app_length. Qed.

Lemma sentBy_nil {A} (m : M A) (s : State) :
  requests (stateAfter m s) = requests s → sentBy m s = [].
Proof. intros H. apply sentBy_app. rewrite H, app_nil_r. reflexivity. Qed.

Lemma fetch_run {T} (endpoint : nat → string → AxiosResult T)
    (url : string) (s : State) :
  fetch endpoint url s =
    (payload (endpoint (length (requests s)) url),
     {| globalState := globalState s; requests := requests s ++ [url] |}).
Proof.
  unfold fetch, bind, sendRequest, ret. cbn.
  destruct (endpoint _ _) as [[d|]|err]; cbn; try reflexivity.
  repeat case_bool_decide; reflexivity.
Qed.

Lemma getDefinitionSiteUri_truthy locationInfo uri :
  getDefinitionSiteUri locationInfo = Some uri →
  truthy (getDefinitionSiteUri locationInfo) = Some uri.
Proof.
  intros H. rewrite H. apply truthy_Some.
  destruct locationInfo as [| p m e n a c |]; try discriminate.
  injection H as <-. unfold packageIdToString.
  destruct (hce.name p); discriminate.
Qed.

Section DefinitionResolver.

Context (host : Host) (remote : Remote).

Lemma fetchDefinitionSite_run locationInfo uri s :
  getDefinitionSiteUri locationInfo = Some uri →
  fetchDefinitionSite host remote locationInfo s =
    let url := definitionSiteUrl host locationInfo in
    let sent := {| globalState := globalState s; requests := requests s ++ [url] |} in
    match payload (definitionSiteEndpoint remote (length (requests s)) url) with
    | None => (None, sent)
    | Some definitionSite =>
        (Some definitionSite,
         {| globalState := setDefinitionSite uri definitionSite (globalState s);
            requests := requests s ++ [url] |})
    end.
Proof.
  intros H. unfold fetchDefinitionSite.
  rewrite (getDefinitionSiteUri_truthy _ _ H).
  unfold bind at 1. rewrite fetch_run.
  destruct (payload _); reflexivity.
Qed.

(** C5: an unknown location is resolved to nothing, with no request and no
    change of state. *)
Theorem unknown_location_absent (s : State) :
  let run := provideDefinitionFromLocationInfo host remote hce.UnknownLocation in
  result run s = undefined ∧ sentBy run s = [] ∧ stateAfter run s = s.
Proof.
  cbn zeta. split; [reflexivity|]. split; [|reflexivity].
  apply sentBy_nil. reflexivity.
Qed.

(** C1: an exact location is translated without any request; an
    approximate location sends no request when its key is in the cache of
    definition sites and exactly one, for its definition site, when it is
    not; when the definition site that comes back is not exact, nothing is
    returned and nothing more is sent.  No resolution sends more than one
    request. *)
Theorem definition_resolution_one_hop (s : State)
    (locationInfo : hce.LocationInfo) (uri : string)
    (cached fetched : hce.DefinitionSite) :
  let run := provideDefinitionFromLocationInfo host remote locationInfo in
  let url := definitionSiteUrl host locationInfo in
  (isExact locationInfo = true →
   sentBy run s = [] ∧
   result run s = orNull (haskellLocationtoVscodeLocation (globalState s) locationInfo)) ∧
  (getDefinitionSiteUri locationInfo = Some uri →
   definitionSites (globalState s) !! uri = Some cached →
   sentBy run s = []) ∧
  (getDefinitionSiteUri locationInfo = Some uri →
   definitionSites (globalState s) !! uri = None →
   sentBy run s = [url]) ∧
  (getDefinitionSiteUri locationInfo = Some uri →
   definitionSites (globalState s) !! uri = None →
   payload (definitionSiteEndpoint remote (length (requests s)) url) = Some fetched →
   isExact (hce.location fetched) = false →
   result run s = undefined ∧ sentBy run s = [url]) ∧
  (length (sentBy run s) ≤ 1)%nat.
Proof.
  cbn zeta.
  assert (∀ u, getDefinitionSiteUri locationInfo = Some u →
            provideDefinitionFromLocationInfo host remote locationInfo s =
              match definitionSites (globalState s) !! u with
              | Some site =>
                  (if isExact (hce.location site)
                   then orNull (haskellLocationtoVscodeLocation (globalState s)
                                  (hce.location site))
                   else undefined, s)
              | None =>
                  let url := definitionSiteUrl host locationInfo in
                  match payload (definitionSiteEndpoint remote
                                   (length (requests s)) url) with
                  | None =>
                      (undefined,
                       {| globalState := globalState s;
                          requests := requests s ++ [url] |})
                  | Some site =>
                      (if isExact (hce.location site)
                       then orNull (haskellLocationtoVscodeLocation
                                      (setDefinitionSite u site (globalState s))
                                      (hce.location site))
                       else undefined,
                       {| globalState := setDefinitionSite u site (globalState s);
                          requests := requests s ++ [url] |})
                  end
              end) as Hrun.
  { intros u Hu. unfold provideDefinitionFromLocationInfo.
    rewrite (getDefinitionSiteUri_truthy _ _ Hu).
    destruct locationInfo as [| p m e n a c |]; try discriminate.
    unfold bind at 1, getGlobalState at 1.
    destruct (definitionSites (globalState s) !! u) as [site|].
    - destruct (hce.location site); reflexivity.
    - unfold bind at 1. rewrite (fetchDefinitionSite_run _ _ _ Hu). cbn zeta.
      destruct (payload _) as [site|]; [|reflexivity].
      destruct (hce.location site); reflexivity. }
  split; [|split; [|split; [|split]]].
  - intros Hx. destruct locationInfo; try discriminate.
    split; [apply sentBy_nil|]; reflexivity.
  - intros Hu Hc. apply sentBy_nil. unfold stateAfter.
    rewrite (Hrun _ Hu), Hc. reflexivity.
  - intros Hu Hc. apply sentBy_app. unfold stateAfter.
    rewrite (Hrun _ Hu), Hc. cbn zeta. destruct (payload _); reflexivity.
  - intros Hu Hc Hp Hx. split.
    + unfold result. rewrite (Hrun _ Hu), Hc. cbn zeta.
      rewrite Hp, Hx. reflexivity.
    + apply sentBy_app. unfold stateAfter.
      rewrite (Hrun _ Hu), Hc. cbn zeta. rewrite Hp. reflexivity.
  - destruct (getDefinitionSiteUri locationInfo) as [u|] eqn:Hu.
    + unfold sentBy, stateAfter. rewrite (Hrun _ eq_refl).
      destruct (definitionSites (globalState s) !! u).
      * cbn. rewrite drop_all. cbn. lia.
      * cbn zeta. destruct (payload _); cbn; rewrite drop_app_length; cbn; lia.
    + destruct locationInfo; try discriminate.
      * rewrite sentBy_nil; [cbn; lia | reflexivity].
      * rewrite sentBy_nil; [cbn; lia | reflexivity].
Qed.

End DefinitionResolver.

Lemma definition_resolution_one_hop_witness :
  sentBy (provideDefinitionFromLocationInfo exampleHost exampleRemote exampleExact)
    exampleState = [] ∧
  sentBy (provideDefinitionFromLocationInfo exampleHost exampleRemote exampleApproximate)
    exampleWarmState = [] ∧
  sentBy (provideDefinitionFromLocationInfo exampleHost exampleRemote exampleApproximate)
    exampleState =
    [ "http://localhost:8080/api/definitionSite/pkg-1.0/c1/M/Val/foo" ] ∧
  result (provideDefinitionFromLocationInfo exampleHost exampleRemote exampleIndirect)
    exampleState = undefined ∧
  sentBy (provideDefinitionFromLocationInfo exampleHost exampleRemote exampleIndirect)
    exampleState =
    [ "http://localhost:8080/api/definitionSite/pkg-1.0/c1/M/Val/bar" ].
Proof.
  pose proof (definition_resolution_one_hop exampleHost exampleRemote exampleState
                exampleExact "" exampleSite exampleSite) as (Hexact & _).
  pose proof (definition_resolution_one_hop exampleHost exampleRemote
                exampleWarmState exampleApproximate "pkg-1.0/c1/M/Val/foo"
                exampleSite exampleSite) as (_ & Hwarm & _).
  pose proof (definition_resolution_one_hop exampleHost exampleRemote exampleState
                exampleApproximate "pkg-1.0/c1/M/Val/foo" exampleSite exampleSite)
    as (_ & _ & Hcold & _).
  pose proof (definition_resolution_one_hop exampleHost exampleRemote exampleState
                exampleIndirect "pkg-1.0/c1/M/Val/bar" exampleSite
                {| hce.location := exampleApproximate; hce.doc := None |})
    as (_ & _ & _ & Hindirect & _).
  split; [|split; [|split]].
  - apply Hexact. reflexivity.
  - apply Hwarm; reflexivity.
  - apply Hcold; reflexivity.
  - apply Hindirect; reflexivity.
Defined.

(** ** Go to definition *)

Section DefinitionProvider.

Context (host : Host) (remote : Remote).

(** The entry point once the word, the module and the occurrence are found. *)
Lemma provideDefinition_found (s : State) (document : TextDocument)
    (position : Position) (wordRange : Range) (moduleInfo : hce.ModuleInfo)
    (occurrence : hce.IdentifierOccurrence) :
  wordRangeAtPosition host document position = Some wordRange →
  haskellModules (globalState s) !! uriPath document = Some moduleInfo →
  hce.occurrences moduleInfo !! wordRangeToOccurrenceId wordRange = Some occurrence →
  provideDefinition host remote document position s =
    if (posLine (rangeStart wordRange) =? posLine (rangeEnd wordRange))%Z then
      match hce.occSort occurrence with
      | hce.ModuleId contents =>
          provideDefinitionFromLocationInfo host remote contents s
      | _ =>
          match truthy (hce.internalId occurrence) with
          | None => (undefined, s)
          | Some internalId =>
              match hce.identifiers moduleInfo !! internalId with
              | None => (undefined, s)
              | Some identifier =>
                  if hce.isBinder occurrence then (undefined, s)
                  else provideDefinitionFromLocationInfo host remote
                         (hce.locationInfo identifier) s
              end
          end
      end
    else (undefined, s).
Proof.
  intros Hword Hmodule Hocc. unfold provideDefinition. rewrite Hword.
  destruct (posLine (rangeStart wordRange) =? posLine (rangeEnd wordRange))%Z;
    [|reflexivity].
  cbn [negb]. unfold bind at 1, getGlobalState at 1. rewrite Hmodule, Hocc.
  destruct (hce.occSort occurrence); try reflexivity;
    destruct (truthy (hce.internalId occurrence)) as [i|]; try reflexivity;
    destruct (hce.identifiers moduleInfo !! i); try reflexivity;
    destruct (hce.isBinder occurrence); reflexivity.
Qed.

(** C2, as the code has it: a binder whose sort is not [ModuleId] is never
    a target: nothing is returned, nothing is sent and the state is
    unchanged.  An occurrence of sort [ModuleId] is resolved through the
    location of the module, whatever [isBinder] says. *)
Theorem binder_excluded (s : State) (document : TextDocument)
    (position : Position) (wordRange : Range) (moduleInfo : hce.ModuleInfo)
    (occurrence : hce.IdentifierOccurrence) :
  wordRangeAtPosition host document position = Some wordRange →
  haskellModules (globalState s) !! uriPath document = Some moduleInfo →
  hce.occurrences moduleInfo !! wordRangeToOccurrenceId wordRange = Some occurrence →
  hce.isBinder occurrence = true →
  match hce.occSort occurrence with
  | hce.ModuleId contents =>
      posLine (rangeStart wordRange) = posLine (rangeEnd wordRange) →
      provideDefinition host remote document position s =
        provideDefinitionFromLocationInfo host remote contents s
  | _ => provideDefinition host remote document position s = (undefined, s)
  end.
Proof.
  intros Hword Hmodule Hocc Hbinder.
  rewrite (provideDefinition_found _ _ _ _ _ _ Hword Hmodule Hocc), Hbinder.
  destruct (hce.occSort occurrence).
  - destruct (_ =? _)%Z; [|reflexivity].
    destruct (truthy _) as [i|]; [|reflexivity].
    destruct (_ !! i); reflexivity.
  - destruct (_ =? _)%Z; [|reflexivity].
    destruct (truthy _) as [i|]; [|reflexivity].
    destruct (_ !! i); reflexivity.
  - intros Hline. apply Z.eqb_eq in Hline. rewrite Hline. reflexivity.
Qed.

End DefinitionProvider.

Lemma binder_excluded_witness :
  provideDefinition exampleHost exampleRemote exampleDocument examplePosition
    (stateWithOccurrence exampleValueBinder) =
  (undefined, stateWithOccurrence exampleValueBinder).
Proof.
  apply (binder_excluded exampleHost exampleRemote
           (stateWithOccurrence exampleValueBinder) exampleDocument
           examplePosition (mkRange 9 4 9 7)
           (hce.Build_ModuleInfo {[ "x1" := exampleIdentifier ]}
              {[ "10-5-8" := exampleValueBinder ]})
           exampleValueBinder); reflexivity.
Defined.

(** An occurrence with [isBinder = true] for which a location is returned:
    its sort is [ModuleId]. *)
Lemma binder_excluded_counterexample :
  let s := stateWithOccurrence exampleModuleBinder in
  let moduleInfo :=
    hce.Build_ModuleInfo {[ "x1" := exampleIdentifier ]}
      {[ "10-5-8" := exampleModuleBinder ]} in
  wordRangeAtPosition exampleHost exampleDocument examplePosition =
    Some (mkRange 9 4 9 7) ∧
  haskellModules (globalState s) !! uriPath exampleDocument = Some moduleInfo ∧
  hce.occurrences moduleInfo !! wordRangeToOccurrenceId (mkRange 9 4 9 7) =
    Some exampleModuleBinder ∧
  hce.isBinder exampleModuleBinder = true ∧
  result (provideDefinition exampleHost exampleRemote exampleDocument examplePosition) s =
    value {| locationFile := "/work/pkg/M.hs"; locationRange := mkRange 2 0 2 3 |} ∧
  absent
    (result (provideDefinition exampleHost exampleRemote exampleDocument examplePosition) s) =
    false.
Proof. repeat split. Qed.

(** ** Module cache *)

Lemma mapFromObject_id {V} (obj : gmap string V) : mapFromObject obj = obj.
Proof. apply list_to_map_to_list. Qed.

Section ModuleCache.

Context (host : Host) (remote : Remote).

Lemma fetchHaskellModule_run packageInfo document s :
  fetchHaskellModule host remote packageInfo document s =
    let url := haskellModuleUrl host packageInfo document in
    match payload (moduleEndpoint remote (length (requests s)) url) with
    | None =>
        (None, {| globalState := globalState s; requests := requests s ++ [url] |})
    | Some data =>
        let moduleInfo :=
          {| hce.identifiers := hce.responseIdentifiers data;
             hce.occurrences := hce.responseOccurrences data |} in
        (Some moduleInfo,
         {| globalState :=
              setHaskellModule (uriPath document) moduleInfo (globalState s);
            requests := requests s ++ [url] |})
    end.
Proof.
  unfold fetchHaskellModule. unfold bind at 1. rewrite fetch_run.
  cbn zeta. destruct (payload _) as [data|]; [|reflexivity].
  rewrite !mapFromObject_id. reflexivity.
Qed.

Lemma fetchHaskellModule_requests packageInfo document s :
  requests (stateAfter (fetchHaskellModule host remote packageInfo document) s) =
    (requests s ++ [haskellModuleUrl host packageInfo document])%list.
Proof.
  unfold stateAfter. rewrite fetchHaskellModule_run. cbn zeta.
  destruct (payload _); reflexivity.
Qed.

(** C9: a successful fetch stores the module under the path of the
    document and returns it; a failed fetch returns nothing and leaves the
    caches as they were, so that the next call for the same document, which
    still finds no module in the cache, sends the request again. *)
Theorem module_fetch_caching (s : State) (packageInfo : PackageInfo)
    (document : TextDocument) (data : hce.HaskellModuleResponse) :
  let run := fetchHaskellModule host remote packageInfo document in
  let url := haskellModuleUrl host packageInfo document in
  let answer := moduleEndpoint remote (length (requests s)) url in
  let moduleInfo :=
    {| hce.identifiers := hce.responseIdentifiers data;
       hce.occurrences := hce.responseOccurrences data |} in
  (payload answer = Some data →
   result run s = Some moduleInfo ∧
   globalState (stateAfter run s) =
     setHaskellModule (uriPath document) moduleInfo (globalState s) ∧
   haskellModules (globalState (stateAfter run s)) !! uriPath document =
     Some moduleInfo) ∧
  (failed answer →
   result run s = None ∧
   globalState (stateAfter run s) = globalState s ∧
   sentBy run (stateAfter run s) = [url] ∧
   (isHaskellFile document = true →
    haskellModules (globalState s) !! uriPath document = None →
    lookupPackageInfo host (globalState s) document = Some packageInfo →
    sentBy (maybeFetchModuleInfo host remote document) (stateAfter run s) = [url])).
Proof.
  cbn zeta. split.
  - intros Hp. unfold result, stateAfter. rewrite fetchHaskellModule_run.
    cbn zeta. rewrite Hp. cbn. repeat split. apply lookup_insert_eq.
  - intros Hp. unfold failed in Hp. unfold result, stateAfter.
    rewrite fetchHaskellModule_run. cbn zeta. rewrite Hp. cbn [fst snd].
    split; [reflexivity|]. split; [reflexivity|]. split.
    + apply sentBy_app, fetchHaskellModule_requests.
    + intros Hhs Hmiss Hpkg. apply sentBy_app.
      match goal with |- requests (stateAfter _ ?S) = _ => set (retry := S) end.
      assert (stateAfter (maybeFetchModuleInfo host remote document) retry =
              stateAfter (fetchHaskellModule host remote packageInfo document) retry)
        as ->; [|apply fetchHaskellModule_requests].
      unfold stateAfter, maybeFetchModuleInfo. rewrite Hhs. cbn [negb].
      unfold bind at 1, getGlobalState at 1. subst retry. cbn [globalState].
      rewrite Hmiss, bool_decide_eq_false_2 by (intros [? ?]; discriminate).
      unfold fetchModuleInfo, bind at 1, getGlobalState at 1. cbn [globalState].
      rewrite Hpkg. unfold bind at 1.
      destruct (fetchHaskellModule host remote packageInfo document _);
        reflexivity.
Qed.

End ModuleCache.

Lemma module_fetch_caching_witness :
  let packageInfo := {| packageId := examplePackage; packageFolder := "/work/pkg" |} in
  let url :=
    "http://localhost:8080/files/pkg-1.0/.haskell-code-explorer/src/A.hs.json" in
  let first := fetchHaskellModule exampleHost exampleRemote packageInfo exampleDocument in
  (result first exampleState = None ∧
   globalState (stateAfter first exampleState) = globalState exampleState ∧
   sentBy (maybeFetchModuleInfo exampleHost exampleRemote exampleDocument)
     (stateAfter first exampleState) = [url]) ∧
  haskellModules (globalState (stateAfter first (stateAfter first exampleState)))
    !! "/work/pkg/src/A.hs" =
    Some {| hce.identifiers := ∅; hce.occurrences := ∅ |}.
Proof.
  cbn zeta.
  pose proof (module_fetch_caching exampleHost exampleRemote exampleState
                {| packageId := examplePackage; packageFolder := "/work/pkg" |}
                exampleDocument exampleModuleResponse) as (_ & Hfail).
  pose proof (module_fetch_caching exampleHost exampleRemote
                (stateAfter
                   (fetchHaskellModule exampleHost exampleRemote
                      {| packageId := examplePackage; packageFolder := "/work/pkg" |}
                      exampleDocument) exampleState)
                {| packageId := examplePackage; packageFolder := "/work/pkg" |}
                exampleDocument exampleModuleResponse) as (Hok & _).
  split.
  - destruct (Hfail eq_refl) as (H1 & H2 & _ & H3).
    split; [exact H1|]. split; [exact H2|]. apply H3; reflexivity.
  - destruct (Hok eq_refl) as (_ & _ & H). exact H.
Defined.

(** ** Promise.all *)

Lemma elem_of_delete_other {A} (l : list A) (c : nat) (x y : A) :
  l !! c = Some y → x ∈ l → x = y ∨ x ∈ delete c l.
Proof.
  intros Hc Hx. rewrite delete_take_drop.
  rewrite <- (take_drop_middle l c y Hc) in Hx.
  apply elem_of_app in Hx as [Hx|Hx].
  - right. apply elem_of_app. left. exact Hx.
  - apply elem_of_cons in Hx as [->|Hx]; [left; reflexivity|].
    right. apply elem_of_app. right. exact Hx.
Qed.

(** Whatever the order in which the pending promises settle, every slot
    ends up holding the value of its own promise. *)
Lemma settle_all {A} (promises : list A) (steps : nat) :
  ∀ (choices : list nat) (pending : list (nat * A)) (values : list (option A)),
    length pending = steps →
    length values = length promises →
    (∀ i v, (i, v) ∈ pending → promises !! i = Some v) →
    (∀ i v, promises !! i = Some v →
            (i, v) ∈ pending ∨ values !! i = Some (Some v)) →
    settle steps choices pending values = Some <$> promises.
Proof.
  induction steps as [|steps IH]; intros choices pending values Hlen Hvals Hpend Hinv.
  - cbn. destruct pending; [|discriminate].
    apply list_eq. intros i. rewrite list_lookup_fmap.
    destruct (promises !! i) as [v|] eqn:Hi.
    + destruct (Hinv i v Hi) as [Hin|Hv]; [inversion Hin | exact Hv].
    + apply lookup_ge_None_2. rewrite Hvals. apply lookup_ge_None. exact Hi.
  - cbn [settle].
    set (c := (hd 0 choices `mod` length pending)%nat).
    assert (c < length pending)%nat as Hc.
    { apply Nat.mod_upper_bound. rewrite Hlen. discriminate. }
    destruct (lookup_lt_is_Some_2 _ _ Hc) as [[index v] Hcv]. rewrite Hcv.
    assert (promises !! index = Some v) as Hindex.
    { apply Hpend. eapply list_elem_of_lookup_2. exact Hcv. }
    apply IH.
    + rewrite length_delete by eauto. lia.
    + rewrite length_insert. exact Hvals.
    + intros i w Hin. apply Hpend. eapply list_elem_of_delete_inv. exact Hin.
    + intros i w Hi. destruct (decide (i = index)) as [->|Hne].
      * right. assert (w = v) as -> by congruence.
        apply list_lookup_insert_eq. rewrite Hvals.
        eapply lookup_lt_Some. exact Hindex.
      * destruct (Hinv i w Hi) as [Hin|Hv].
        -- destruct (elem_of_delete_other _ _ _ _ Hcv Hin) as [E|Hin'];
             [congruence | left; exact Hin'].
        -- right. rewrite list_lookup_insert_ne by congruence. exact Hv.
Qed.

Lemma omap_id_Some {A} (l : list A) : omap id (Some <$> l) = l.
Proof. induction l as [|x l IH]; [reflexivity|]. cbn. f_equal. exact IH. Qed.

Lemma promiseAll_values {A} (choices : list nat) (promises : list A) :
  promiseAll choices promises = promises.
Proof.
  unfold promiseAll. rewrite (settle_all promises); [apply omap_id_Some|..].
  - apply length_imap.
  - apply length_replicate.
  - intros i v Hin. apply elem_of_lookup_imap_1 in Hin as (j & y & [= -> ->] & Hj).
    exact Hj.
  - intros i v Hi. left. apply (elem_of_lookup_imap_2 pair). exact Hi.
Qed.

Lemma foldl_append {A B} (f : B → list A) (l : list B) (acc : list A) :
  foldl (λ acc x, (acc ++ f x)%list) acc l = (acc ++ concat (map f l))%list.
Proof.
  revert acc. induction l as [|x l IH]; intros acc; cbn.
  - rewrite app_nil_r. reflexivity.
  - rewrite IH, app_assoc. reflexivity.
Qed.

Lemma contribution_tagged package answer :
  Forall (λ r, packageIdString r = package) (contribution package answer).
Proof.
  unfold contribution. destruct (payload answer) as [sourceFiles|]; [|constructor].
  unfold taggedReferences.
  induction sourceFiles as [|sourceFile rest IH]; cbn; [constructor|].
  apply Forall_app. split; [|exact IH].
  induction (hce.references sourceFile); cbn; constructor; auto.
Qed.

(** ** Reference aggregator *)

Section ReferenceAggregator.

Context (host : Host) (remote : Remote) (externalId : string).

Lemma fetchReferencesInPackage_run package s :
  fetchReferencesInPackage host remote package externalId s =
    let url := referencesUrl host package externalId in
    (contribution package (referencesEndpoint remote (length (requests s)) url),
     {| globalState := globalState s; requests := requests s ++ [url] |}).
Proof.
  unfold fetchReferencesInPackage, contribution, taggedReferences.
  unfold bind at 1. rewrite fetch_run. cbn zeta.
  destruct (payload _) as [sourceFiles|]; [|reflexivity].
  unfold ret. f_equal.
  apply (foldl_append
           (λ sourceFile,
              map (λ x, {| packageIdString := package;
                           idSrcSpan := hce.idSrcSpan x |})
                (hce.references sourceFile))).
Qed.

Lemma mapM_fetchReferencesInPackage globalReferences :
  ∀ s,
    mapM (λ globalReference,
            fetchReferencesInPackage host remote
              (hce.packageId globalReference) externalId)
      globalReferences s =
    (contributions host remote externalId (length (requests s)) globalReferences,
     {| globalState := globalState s;
        requests :=
          requests s ++
          map (λ globalReference,
                 referencesUrl host (hce.packageId globalReference) externalId)
            globalReferences |}).
Proof.
  unfold contributions.
  induction globalReferences as [|g gs IH]; intros s.
  - cbn. unfold ret. rewrite app_nil_r. destruct s; reflexivity.
  - cbn [mapM]. unfold bind at 1. rewrite fetchReferencesInPackage_run. cbn zeta.
    unfold bind at 1. rewrite IH. unfold ret. cbn [globalState requests map].
    rewrite imap_cons, Nat.add_0_r. unfold packageAnswer at 2.
    rewrite <- app_assoc. cbn [app]. f_equal. f_equal.
    apply imap_ext. intros i x _. cbn. rewrite length_app. cbn.
    do 2 f_equal. lia.
Qed.

Lemma fetchAllReferences_run choices s globalReferences :
  let globalUrl := globalReferencesUrl host externalId in
  payload (globalReferencesEndpoint remote (length (requests s)) globalUrl) =
    Some globalReferences →
  fetchAllReferences host remote choices externalId s =
    let merged := concat (contributions host remote externalId (length (requests s) + 1) globalReferences) in
    (Some merged,
     {| globalState := setReferences externalId merged (globalState s);
        requests :=
          requests s ++
          globalUrl ::
          map (λ globalReference,
                 referencesUrl host (hce.packageId globalReference) externalId)
            globalReferences |}).
Proof.
  cbn zeta. intros Hp. unfold fetchAllReferences.
  unfold bind at 1. rewrite fetch_run, Hp.
  unfold bind at 1. rewrite mapM_fetchReferencesInPackage.
  cbn [globalState requests]. rewrite promiseAll_values.
  rewrite (foldl_append (λ item, item)), map_id. cbn [app].
  rewrite length_app. cbn [length].
  unfold bind, modifyGlobalState, ret. cbn [globalState requests].
  rewrite <- app_assoc. reflexivity.
Qed.

Lemma fetchAllReferences_failed choices s :
  let globalUrl := globalReferencesUrl host externalId in
  failed (globalReferencesEndpoint remote (length (requests s)) globalUrl) →
  fetchAllReferences host remote choices externalId s =
    (None, {| globalState := globalState s; requests := requests s ++ [globalUrl] |}).
Proof.
  cbn zeta. unfold failed. intros Hp. unfold fetchAllReferences.
  unfold bind at 1. rewrite fetch_run, Hp. reflexivity.
Qed.

(** C7: the merged result is the concatenation, in the order of the
    discovery and whatever the order in which the responses arrive, of what
    each package contributes: its references in the order of the response,
    file after file, each tagged with the identity of that package. *)
Theorem merged_references_order (choices : list nat) (s : State)
    (globalReferences : list hce.GlobalReferences) :
  let run := fetchAllReferences host remote choices externalId in
  let first := length (requests s) in
  let groups := contributions host remote externalId (first + 1) globalReferences in
  payload (globalReferencesEndpoint remote first (globalReferencesUrl host externalId)) =
    Some globalReferences →
  result run s = Some (concat groups) ∧
  length groups = length globalReferences ∧
  (∀ (i : nat) globalReference sourceFiles,
     globalReferences !! i = Some globalReference →
     payload (packageAnswer host remote externalId (first + 1 + i) globalReference) = Some sourceFiles →
     groups !! i =
       Some (concat
               (map (λ sourceFile,
                       map (λ x, {| packageIdString := hce.packageId globalReference;
                                    idSrcSpan := hce.idSrcSpan x |})
                         (hce.references sourceFile))
                  sourceFiles))) ∧
  (∀ (i : nat) globalReference group,
     globalReferences !! i = Some globalReference →
     groups !! i = Some group →
     Forall (λ r, packageIdString r = hce.packageId globalReference) group).
Proof.
  cbn zeta. intros Hp. split; [|split; [|split]].
  - unfold result. rewrite (fetchAllReferences_run _ _ _ Hp). reflexivity.
  - apply length_imap.
  - intros i g sourceFiles Hi Hanswer. unfold contributions.
    rewrite list_lookup_imap, Hi. cbn. unfold contribution. rewrite Hanswer.
    reflexivity.
  - intros i g group Hi Hgroup. unfold contributions in Hgroup.
    rewrite list_lookup_imap, Hi in Hgroup. injection Hgroup as <-.
    apply contribution_tagged.
Qed.

(** C3: when the discovery returns two packages and the query for the
    second fails while the query for the first succeeds, the result is
    exactly the references of the first, in order; all three requests are
    sent and the result is stored in the cache under the external
    identifier.  When the discovery itself fails, nothing is returned and
    no cache is changed. *)
Theorem partial_fan_out (choices : list nat) (s : State)
    (p1 p2 : hce.GlobalReferences) (sourceFiles1 : list hce.SourceFile) :
  let run := fetchAllReferences host remote choices externalId in
  let first := length (requests s) in
  let globalUrl := globalReferencesUrl host externalId in
  let discovery := globalReferencesEndpoint remote first globalUrl in
  let url1 := referencesUrl host (hce.packageId p1) externalId in
  let url2 := referencesUrl host (hce.packageId p2) externalId in
  let references1 := taggedReferences (hce.packageId p1) sourceFiles1 in
  (payload discovery = Some [p1; p2] →
   payload (referencesEndpoint remote (first + 1) url1) = Some sourceFiles1 →
   failed (referencesEndpoint remote (first + 2) url2) →
   result run s = Some references1 ∧
   references (globalState (stateAfter run s)) !! externalId = Some references1 ∧
   sentBy run s = [globalUrl; url1; url2]) ∧
  (failed discovery →
   result run s = None ∧
   globalState (stateAfter run s) = globalState s ∧
   sentBy run s = [globalUrl]).
Proof.
  cbn zeta. split.
  - intros Hp H1 H2. unfold failed in H2.
    assert (concat (contributions host remote externalId (length (requests s) + 1) [p1; p2]) =
            taggedReferences (hce.packageId p1) sourceFiles1) as Hmerged.
    { unfold contributions, packageAnswer, contribution. cbn.
      rewrite Nat.add_0_r, H1.
      replace (length (requests s) + 1 + 1)%nat with (length (requests s) + 2)%nat
        by lia.
      rewrite H2. cbn. apply app_nil_r. }
    unfold result, stateAfter. rewrite (fetchAllReferences_run _ _ _ Hp).
    cbn zeta. rewrite Hmerged. cbn [fst snd globalState].
    split; [reflexivity|]. split; [apply lookup_insert_eq|].
    apply sentBy_app. unfold stateAfter.
    rewrite (fetchAllReferences_run _ _ _ Hp). reflexivity.
  - intros Hp. unfold result, stateAfter.
    rewrite (fetchAllReferences_failed _ _ Hp). cbn [fst snd globalState].
    split; [reflexivity|]. split; [reflexivity|].
    apply sentBy_app. unfold stateAfter.
    rewrite (fetchAllReferences_failed _ _ Hp). reflexivity.
Qed.

End ReferenceAggregator.

Lemma merged_references_order_witness :
  result (fetchAllReferences exampleHost exampleRemote [1%nat; 0%nat] "foo")
    exampleState = Some [exampleReference].
Proof.
  destruct (merged_references_order exampleHost exampleRemote "foo" [1%nat; 0%nat]
              exampleState
              [ {| hce.count := 1; hce.packageId := "pkg-1.0" |};
                {| hce.count := 2; hce.packageId := "dep-0.2" |} ] eq_refl)
    as (H & _).
  exact H.
Defined.

Lemma partial_fan_out_witness :
  let run := fetchAllReferences exampleHost exampleRemote [1%nat] "foo" in
  (result run exampleState = Some [exampleReference] ∧
   references (globalState (stateAfter run exampleState)) !! "foo" =
     Some [exampleReference]) ∧
  (result run exampleWarmState = None ∧
   globalState (stateAfter run exampleWarmState) = globalState exampleWarmState).
Proof.
  cbn zeta. split.
  - destruct (partial_fan_out exampleHost exampleRemote "foo" [1%nat] exampleState
                {| hce.count := 1; hce.packageId := "pkg-1.0" |}
                {| hce.count := 2; hce.packageId := "dep-0.2" |}
                exampleSourceFiles) as (H & _).
    destruct (H eq_refl eq_refl eq_refl) as (H1 & H2 & _).
    split; [exact H1 | exact H2].
  - destruct (partial_fan_out exampleHost exampleRemote "foo" [1%nat]
                exampleWarmState
                {| hce.count := 1; hce.packageId := "pkg-1.0" |}
                {| hce.count := 2; hce.packageId := "dep-0.2" |}
                exampleSourceFiles) as (_ & H).
    destruct (H eq_refl) as (H1 & H2 & _).
    split; [exact H1 | exact H2].
Defined.

(** * Further properties of the code *)

(** ** Keys and identities *)

Lemma replaceDots_inj s t :
  occursIn "%" s = false → occursIn "%" t = false →
  replaceDots s = replaceDots t → s = t.
Proof.
  revert t. induction s as [|c s IH]; intros [|d t] Hs Ht H.
  - reflexivity.
  - cbn in H, Ht. destruct (Ascii.eqb d "."); [discriminate|].
    discriminate.
  - cbn in H, Hs. destruct (Ascii.eqb c "."); discriminate.
  - cbn in Hs, Ht.
    apply orb_false_elim in Hs as [Hc Hs]. apply orb_false_elim in Ht as [Hd Ht].
    cbn [replaceDots] in H.
    destruct (Ascii.eqb_spec c "."), (Ascii.eqb_spec d "."); subst.
    + injection H as H. f_equal. apply IH; assumption.
    + injection H as H _. subst d. discriminate.
    + injection H as H _. subst c. discriminate.
    + injection H as -> H. f_equal. apply IH; assumption.
Qed.

Lemma replaceDots_not_reserved t r :
  occursIn "%" t = false → replaceDots t ≠ String "%" (String "2" (String "0" r)).
Proof.
  destruct t as [|c t]; [discriminate|]. cbn. intros Hc H.
  apply orb_false_elim in Hc as [Hc _].
  destruct (Ascii.eqb c "."); [discriminate|].
  injection H as -> _. discriminate.
Qed.

(** X1: two names without ["%"] that are escaped to the same segment are
    the same name: the escaping, reserved tokens included, loses nothing on
    such names. *)
Theorem fixUrlDots_injective (name1 name2 : string) :
  occursIn "%" name1 = false → occursIn "%" name2 = false →
  fixUrlDots name1 = fixUrlDots name2 → name1 = name2.
Proof.
  intros H1 H2. unfold fixUrlDots.
  destruct (String.eqb_spec name1 ".") as [->|N1];
    [|destruct (String.eqb_spec name1 "..") as [->|N1']];
    (destruct (String.eqb_spec name2 ".") as [->|N2];
      [|destruct (String.eqb_spec name2 "..") as [->|N2']]);
    intros H; try reflexivity; try discriminate H.
  - symmetry in H. destruct (replaceDots_not_reserved _ _ H2 H).
  - symmetry in H. destruct (replaceDots_not_reserved _ _ H2 H).
  - destruct (replaceDots_not_reserved _ _ H1 H).
  - destruct (replaceDots_not_reserved _ _ H1 H).
  - apply replaceDots_inj; assumption.
Qed.

Lemma fixUrlDots_injective_witness :
  fixUrlDots ".." ≠ fixUrlDots "T.pack".
Proof.
  intros H.
  apply (fixUrlDots_injective ".." "T.pack" eq_refl eq_refl) in H.
  discriminate H.
Defined.

Lemma last_dash_split n1 n2 v1 v2 :
  occursIn "-" v1 = false → occursIn "-" v2 = false →
  n1 +:+ "-" +:+ v1 = n2 +:+ "-" +:+ v2 → n1 = n2 ∧ v1 = v2.
Proof.
  revert n2. induction n1 as [|a n1 IH]; intros [|b n2] Hv1 Hv2 H.
  - injection H as H. auto.
  - injection H as _ H. change (v1 = n2 +:+ "-" +:+ v2) in H.
    rewrite H, occursIn_app in Hv1. cbn in Hv1.
    rewrite orb_true_r in Hv1. discriminate.
  - injection H as _ H. change (n1 +:+ "-" +:+ v1 = v2) in H.
    rewrite <- H, occursIn_app in Hv2. cbn in Hv2.
    rewrite orb_true_r in Hv2. discriminate.
  - injection H as -> H. destruct (IH n2 Hv1 Hv2 H) as [-> ->]. auto.
Qed.

(** X2: two packages whose versions contain no ["-"] and that have the
    same identity string are the same package. *)
Theorem packageIdToString_injective (p q : hce.PackageId) :
  occursIn "-" (hce.version p) = false →
  occursIn "-" (hce.version q) = false →
  packageIdToString p = packageIdToString q → p = q.
Proof.
  intros Hp Hq H. unfold packageIdToString in H.
  destruct (last_dash_split _ _ _ _ Hp Hq H) as [Hn Hv].
  destruct p, q. cbn in *. congruence.
Qed.

Lemma packageIdToString_injective_witness :
  packageIdToString {| hce.name := "a-b"; hce.version := "1.0" |} ≠
  packageIdToString {| hce.name := "a"; hce.version := "1.0" |}.
Proof.
  intros H.
  apply (packageIdToString_injective
           {| hce.name := "a-b"; hce.version := "1.0" |}
           {| hce.name := "a"; hce.version := "1.0" |} eq_refl eq_refl) in H.
  discriminate H.
Defined.

(** X3: the registry answers with the folder of the first package that has
    the identity asked for; packages listed after it are not consulted. *)
Theorem packageIdToFolderPath_first (g : GlobalState)
    (before after : list PackageInfo) (p : PackageInfo) (identity : string) :
  haskellPackages g = (before ++ p :: after)%list →
  (∀ q, q ∈ before → packageIdToString (packageId q) ≠ identity) →
  packageIdToString (packageId p) = identity →
  packageIdToFolderPath g identity = Some (packageFolder p).
Proof.
  intros Hg Hbefore Hp. unfold packageIdToFolderPath. rewrite Hg. clear Hg.
  induction before as [|q before IH]; cbn.
  - rewrite (proj2 (String.eqb_eq _ _) Hp). reflexivity.
  - rewrite (proj2 (String.eqb_neq _ _)) by (apply Hbefore; left).
    apply IH. intros r Hr. apply Hbefore. right. exact Hr.
Qed.

Lemma packageIdToFolderPath_first_witness :
  packageIdToFolderPath duplicateGlobalState "pkg-1.0" = Some "/work/pkg".
Proof.
  apply (packageIdToFolderPath_first duplicateGlobalState
           [ {| packageId := {| hce.name := "dep"; hce.version := "0.2" |};
                packageFolder := "/work/dep" |} ]
           [ {| packageId := examplePackage; packageFolder := "/other/pkg" |} ]
           {| packageId := examplePackage; packageFolder := "/work/pkg" |}).
  - reflexivity.
  - intros q Hq. apply list_elem_of_singleton in Hq. subst q. cbn. discriminate.
  - reflexivity.
Defined.

(** ** The package of a document *)

Lemma insertByLength_not_nil {A} (x : A * string) l : insertByLength x l ≠ [].
Proof. destruct l as [|y l]; cbn; [|destruct (_ <=? _)%nat]; discriminate. Qed.

Lemma sortByLength_nil {A} (l : list (A * string)) : sortByLength l = [] → l = [].
Proof.
  destruct l as [|x l]; [reflexivity|]. cbn. intros H.
  destruct (insertByLength_not_nil _ _ H).
Qed.

(** The head of the sorted list is the first of the shortest elements. *)
Lemma sortByLength_head {A} (l : list (A * string)) :
  ∀ y rest, sortByLength l = y :: rest →
    ∃ l1 l2, l = (l1 ++ y :: l2)%list ∧
      (∀ z, z ∈ l1 → (String.length y.2 < String.length z.2)%nat) ∧
      (∀ z, z ∈ l2 → (String.length y.2 ≤ String.length z.2)%nat).
Proof.
  induction l as [|x l IH]; intros y rest H; [discriminate|].
  change (insertByLength x (sortByLength l) = y :: rest) in H.
  destruct (sortByLength l) as [|y0 r0] eqn:Hsort.
  - apply sortByLength_nil in Hsort as ->. injection H as <- <-.
    exists [], []. split; [reflexivity|]. split; intros z Hz; inversion Hz.
  - destruct (IH y0 r0 eq_refl) as (l1 & l2 & -> & Hl1 & Hl2).
    change ((if (String.length x.2 <=? String.length y0.2)%nat
             then x :: y0 :: r0 else y0 :: insertByLength x r0) = y :: rest) in H.
    destruct (Nat.leb_spec (String.length x.2) (String.length y0.2)).
    + injection H as <- <-. exists [], (l1 ++ y0 :: l2)%list.
      split; [reflexivity|]. split; [intros z Hz; inversion Hz|].
      intros z Hz. apply elem_of_app in Hz as [Hz|Hz].
      * specialize (Hl1 z Hz). lia.
      * apply elem_of_cons in Hz as [->|Hz]; [lia|]. specialize (Hl2 z Hz). lia.
    + injection H as <- <-. exists (x :: l1), l2.
      split; [reflexivity|]. split; [|exact Hl2].
      intros z Hz. apply elem_of_cons in Hz as [->|Hz]; [lia | auto].
Qed.

Lemma filter_map_nil {A B} (f : A → B) (P : B → Prop) `{∀ x, Decision (P x)}
    (l : list A) :
  filter P (map f l) = [] → ∀ q, q ∈ l → ¬ P (f q).
Proof.
  induction l as [|x l IH]; intros Hnil q Hq; [inversion Hq|].
  cbn [map] in Hnil. rewrite filter_cons in Hnil.
  destruct (decide (P (f x))) as [Hx|Hx]; [discriminate|].
  apply elem_of_cons in Hq as [->|Hq]; [exact Hx | exact (IH Hnil q Hq)].
Qed.

Lemma filter_map_split {A B} (f : A → B) (P : B → Prop) `{∀ x, Decision (P x)}
    (l : list A) :
  ∀ l1 y l2, filter P (map f l) = (l1 ++ y :: l2)%list →
    ∃ b q a, l = (b ++ q :: a)%list ∧ f q = y ∧ P y ∧
      filter P (map f b) = l1 ∧ filter P (map f a) = l2.
Proof.
  induction l as [|x l IH]; intros l1 y l2 Hsplit.
  - destruct l1; discriminate.
  - cbn [map] in Hsplit. rewrite filter_cons in Hsplit.
    destruct (decide (P (f x))) as [Hx|Hx].
    + destruct l1 as [|z l1].
      * injection Hsplit as <- <-. exists [], x, l. repeat split. exact Hx.
      * injection Hsplit as <- Hsplit.
        destruct (IH _ _ _ Hsplit) as (b & q & a & -> & <- & Hq & <- & <-).
        exists (x :: b), q, a. repeat split; [exact Hq|].
        cbn [map]. rewrite filter_cons, decide_True by exact Hx. reflexivity.
    + destruct (IH _ _ _ Hsplit) as (b & q & a & -> & <- & Hq & <- & <-).
      exists (x :: b), q, a. repeat split; [exact Hq|].
      cbn [map]. rewrite filter_cons, decide_False by exact Hx. reflexivity.
Qed.

Lemma elem_of_filter_map {A B} (f : A → B) (P : B → Prop) `{∀ x, Decision (P x)}
    (l : list A) (q : A) :
  q ∈ l → P (f q) → f q ∈ filter P (map f l).
Proof.
  intros Hq HP. induction l as [|x l IH]; [inversion Hq|].
  cbn [map]. rewrite filter_cons.
  apply elem_of_cons in Hq as [->|Hq].
  - rewrite decide_True by exact HP. left.
  - destruct (decide (P (f x))); [right|]; auto.
Qed.

(** X4: the package chosen for a document is a package of the registry
    whose folder contains the document; no such package has a shorter
    relative path to the document, and those listed before it have a
    strictly longer one.  No package is chosen exactly when no folder of the
    registry contains the document. *)
Theorem lookupPackageInfo_closest (host : Host) (g : GlobalState)
    (document : TextDocument) :
  let distance q := String.length (relativePathTo host document q) in
  match lookupPackageInfo host g document with
  | Some p =>
      ∃ before after,
        haskellPackages g = (before ++ p :: after)%list ∧
        inside host document p ∧
        (∀ q, q ∈ before → inside host document q → (distance p < distance q)%nat) ∧
        (∀ q, q ∈ after → inside host document q → (distance p ≤ distance q)%nat)
  | None => ∀ q, q ∈ haskellPackages g → ¬ inside host document q
  end.
Proof.
  cbn zeta. unfold lookupPackageInfo.
  set (f := λ p : PackageInfo,
              (p, pathRelative host (packageFolder p) (uriPath document))).
  set (P := λ x : PackageInfo * string, String.index 0 "../" x.2 = None).
  destruct (sortByLength (filter P (map f (haskellPackages g)))) as [|y rest] eqn:Hsort.
  - apply sortByLength_nil in Hsort.
    intros q Hq. exact (filter_map_nil f P _ Hsort q Hq).
  - destruct (sortByLength_head _ _ _ Hsort) as (l1 & l2 & Hsplit & Hl1 & Hl2).
    destruct (filter_map_split f P _ _ _ _ Hsplit)
      as (b & q & a & Hg & <- & Hq & <- & <-).
    exists b, a. split; [exact Hg|]. split; [exact Hq|]. split.
    + intros r Hr Hinside. exact (Hl1 (f r) (elem_of_filter_map f P b r Hr Hinside)).
    + intros r Hr Hinside. exact (Hl2 (f r) (elem_of_filter_map f P a r Hr Hinside)).
Qed.

Lemma lookupPackageInfo_closest_witness :
  let chosen := {| packageId := examplePackage; packageFolder := "/work/pkg" |} in
  lookupPackageInfo nestedHost nestedGlobalState exampleDocument = Some chosen ∧
  ∃ before after,
    haskellPackages nestedGlobalState = (before ++ chosen :: after)%list ∧
    inside nestedHost exampleDocument chosen ∧
    (∀ q, q ∈ before → inside nestedHost exampleDocument q →
          (String.length (relativePathTo nestedHost exampleDocument chosen) <
           String.length (relativePathTo nestedHost exampleDocument q))%nat) ∧
    (∀ q, q ∈ after → inside nestedHost exampleDocument q →
          (String.length (relativePathTo nestedHost exampleDocument chosen) ≤
           String.length (relativePathTo nestedHost exampleDocument q))%nat).
Proof.
  split; [reflexivity|].
  exact (lookupPackageInfo_closest nestedHost nestedGlobalState exampleDocument).
Defined.

(** ** The caches only grow *)

Lemma grows_refl s : grows s s.
Proof. repeat split; reflexivity. Qed.

Lemma grows_sent s url :
  grows s {| globalState := globalState s; requests := requests s ++ [url] |}.
Proof.
  repeat split; try reflexivity. cbn. apply prefix_app_r. reflexivity.
Qed.

Section Growth.

Context (host : Host) (remote : Remote).

(** The resolver, run: what it returns and the state it leaves. *)
Lemma provideDefinitionFromLocationInfo_run locationInfo uri s :
  getDefinitionSiteUri locationInfo = Some uri →
  provideDefinitionFromLocationInfo host remote locationInfo s =
    match definitionSites (globalState s) !! uri with
    | Some site =>
        (if isExact (hce.location site)
         then orNull (haskellLocationtoVscodeLocation (globalState s)
                        (hce.location site))
         else undefined, s)
    | None =>
        let url := definitionSiteUrl host locationInfo in
        match payload (definitionSiteEndpoint remote (length (requests s)) url) with
        | None =>
            (undefined,
             {| globalState := globalState s; requests := requests s ++ [url] |})
        | Some site =>
            (if isExact (hce.location site)
             then orNull (haskellLocationtoVscodeLocation (globalState s)
                            (hce.location site))
             else undefined,
             {| globalState := setDefinitionSite uri site (globalState s);
                requests := requests s ++ [url] |})
        end
    end.
Proof.
  intros Hu. unfold provideDefinitionFromLocationInfo.
  rewrite (getDefinitionSiteUri_truthy _ _ Hu).
  destruct locationInfo as [| p m e n a c |]; try discriminate.
  unfold bind at 1, getGlobalState at 1.
  destruct (definitionSites (globalState s) !! uri) as [site|].
  - destruct (hce.location site); reflexivity.
  - unfold bind at 1. rewrite (fetchDefinitionSite_run _ _ _ _ _ Hu). cbn zeta.
    destruct (payload _) as [site|]; [|reflexivity].
    destruct (hce.location site); reflexivity.
Qed.

Lemma provideDefinitionFromLocationInfo_grows locationInfo s :
  grows s (stateAfter (provideDefinitionFromLocationInfo host remote locationInfo) s).
Proof.
  unfold stateAfter.
  destruct (getDefinitionSiteUri locationInfo) as [uri|] eqn:Hu.
  - rewrite (provideDefinitionFromLocationInfo_run _ _ _ Hu).
    destruct (definitionSites (globalState s) !! uri) eqn:Hc; [apply grows_refl|].
    cbn zeta. destruct (payload _); [|apply grows_sent].
    repeat split; try reflexivity; cbn.
    + apply prefix_app_r. reflexivity.
    + apply insert_subseteq. exact Hc.
  - destruct locationInfo; try discriminate; apply grows_refl.
Qed.

Lemma fetchModuleInfo_run document s :
  fetchModuleInfo host remote document s =
    match lookupPackageInfo host (globalState s) document with
    | None => (tt, s)
    | Some packageInfo =>
        (tt, stateAfter (fetchHaskellModule host remote packageInfo document) s)
    end.
Proof.
  unfold fetchModuleInfo, bind at 1, getGlobalState at 1.
  destruct (lookupPackageInfo _ _ _); [|reflexivity].
  unfold bind, stateAfter. destruct (fetchHaskellModule _ _ _ _ _). reflexivity.
Qed.

Lemma fetchModuleInfo_grows document s :
  haskellModules (globalState s) !! uriPath document = None →
  grows s (stateAfter (fetchModuleInfo host remote document) s).
Proof.
  intros Hmiss. unfold stateAfter at 1. rewrite fetchModuleInfo_run.
  destruct (lookupPackageInfo _ _ _) as [packageInfo|]; [|apply grows_refl].
  cbn [snd]. unfold stateAfter. rewrite fetchHaskellModule_run. cbn zeta.
  destruct (payload _); [|apply grows_sent].
  repeat split; try reflexivity; cbn.
  - apply prefix_app_r. reflexivity.
  - apply insert_subseteq. exact Hmiss.
Qed.

Lemma fetchAllReferences_grows choices externalId s :
  references (globalState s) !! externalId = None →
  grows s (stateAfter (fetchAllReferences host remote choices externalId) s).
Proof.
  intros Hmiss. unfold stateAfter.
  destruct (payload (globalReferencesEndpoint remote (length (requests s))
                       (globalReferencesUrl host externalId))) as [gs|] eqn:Hp.
  - rewrite (fetchAllReferences_run _ _ _ _ _ _ Hp). cbn zeta.
    repeat split; try reflexivity; cbn.
    + apply prefix_app_r. reflexivity.
    + apply insert_subseteq. exact Hmiss.
  - rewrite (fetchAllReferences_failed _ _ _ _ _ Hp). apply grows_sent.
Qed.

Lemma miss_then_fetch {A} (document : TextDocument) (r : A) s :
  stateAfter (let* _ := fetchModuleInfo host remote document in ret r) s =
  stateAfter (fetchModuleInfo host remote document) s.
Proof.
  unfold stateAfter, bind. destruct (fetchModuleInfo _ _ _ _). reflexivity.
Qed.

(** A call that nothing interrupts, taken with the arrival of the responses
    it waits for, leaves every entry of the caches in place with the value
    it had. *)
Lemma uninterrupted_calls_grow (choices : list nat) (document : TextDocument)
    (position : Position) (s : State) :
  grows s (stateAfter (provideDefinition host remote document position) s) ∧
  grows s (stateAfter (provideReferences host remote choices document position) s) ∧
  grows s (stateAfter (provideHover host remote document position) s) ∧
  grows s (stateAfter (maybeFetchModuleInfo host remote document) s).
Proof.
  split; [|split; [|split]].
  - unfold provideDefinition.
    destruct (wordRangeAtPosition _ _ _) as [wordRange|]; [|apply grows_refl].
    destruct (negb _); [apply grows_refl|].
    destruct (haskellModules (globalState s) !! uriPath document) as [moduleInfo|] eqn:Hm.
    + unfold stateAfter, bind at 1, getGlobalState at 1. rewrite Hm.
      destruct (_ !! wordRangeToOccurrenceId wordRange) as [occurrence|];
        [|apply grows_refl].
      destruct (hce.occSort occurrence);
        try apply provideDefinitionFromLocationInfo_grows;
        (destruct (truthy _) as [i|]; [|apply grows_refl];
         destruct (_ !! i) as [identifier|]; [|apply grows_refl];
         destruct (hce.isBinder _); [apply grows_refl|];
         apply provideDefinitionFromLocationInfo_grows).
    + replace (stateAfter _ s)
        with (stateAfter (fetchModuleInfo host remote document) s);
        [apply fetchModuleInfo_grows, Hm|].
      rewrite <- (miss_then_fetch document (@undefined Location)).
      unfold stateAfter, bind at 2, getGlobalState at 1. rewrite Hm. reflexivity.
  - unfold provideReferences.
    destruct (wordRangeAtPosition _ _ _) as [wordRange|]; [|apply grows_refl].
    destruct (negb _); [apply grows_refl|].
    destruct (haskellModules (globalState s) !! uriPath document) as [moduleInfo|] eqn:Hm.
    + unfold stateAfter, bind at 1, getGlobalState at 1. rewrite Hm.
      destruct (_ !! wordRangeToOccurrenceId wordRange) as [occurrence|];
        [|apply grows_refl].
      destruct (truthy _) as [i|]; [|apply grows_refl].
      destruct (_ !! i) as [identifier|]; [|apply grows_refl].
      destruct (truthy _) as [externalId|]; [|apply grows_refl].
      destruct (references (globalState s) !! externalId) eqn:Hr; [apply grows_refl|].
      pose proof (fetchAllReferences_grows choices externalId s Hr) as Hg.
      unfold stateAfter in Hg. unfold bind at 1.
      destruct (fetchAllReferences host remote choices externalId s) as [[refs|] s'];
        exact Hg.
    + replace (stateAfter _ s)
        with (stateAfter (fetchModuleInfo host remote document) s);
        [apply fetchModuleInfo_grows, Hm|].
      rewrite <- (miss_then_fetch document (@undefined (list Location))).
      unfold stateAfter, bind at 2, getGlobalState at 1. rewrite Hm. reflexivity.
  - unfold provideHover.
    destruct (wordRangeAtPosition _ _ _) as [wordRange|]; [|apply grows_refl].
    destruct (negb _); [apply grows_refl|].
    destruct (haskellModules (globalState s) !! uriPath document) as [moduleInfo|] eqn:Hm.
    + unfold stateAfter, bind at 1, getGlobalState at 1. rewrite Hm.
      destruct (_ !! wordRangeToOccurrenceId wordRange) as [occurrence|];
        [|apply grows_refl].
      destruct (hce.occSort occurrence);
        try (destruct (truthy (getModuleHoverInfo _)); apply grows_refl);
        (destruct (truthy _) as [i|]; [|apply grows_refl];
         destruct (_ !! i) as [identifier|]; apply grows_refl).
    + replace (stateAfter _ s)
        with (stateAfter (fetchModuleInfo host remote document) s);
        [apply fetchModuleInfo_grows, Hm|].
      rewrite <- (miss_then_fetch document (@None Hover)).
      unfold stateAfter, bind at 2, getGlobalState at 1. rewrite Hm. reflexivity.
  - unfold maybeFetchModuleInfo.
    destruct (negb _); [apply grows_refl|].
    unfold stateAfter, bind at 1, getGlobalState at 1.
    destruct (haskellModules (globalState s) !! uriPath document) eqn:Hm.
    + rewrite bool_decide_eq_true_2 by eauto. apply grows_refl.
    + rewrite bool_decide_eq_false_2 by (intros [? ?]; discriminate).
      apply fetchModuleInfo_grows, Hm.
Qed.

End Growth.

(** ** Resolving twice *)

Section ResolvingTwice.

Context (host : Host) (remote : Remote).

(** X6: once a definition site has come back, exact or not, it is in the
    cache under the key of the location: resolving again that location, or
    any location with the same key, gives the same answer, sends nothing
    and leaves the state as it is. *)
Theorem definition_site_fetched_once (s : State)
    (locationInfo other : hce.LocationInfo) (uri : string)
    (site : hce.DefinitionSite) :
  let run := provideDefinitionFromLocationInfo host remote locationInfo in
  let again := provideDefinitionFromLocationInfo host remote other in
  let url := definitionSiteUrl host locationInfo in
  getDefinitionSiteUri locationInfo = Some uri →
  getDefinitionSiteUri other = Some uri →
  definitionSites (globalState s) !! uri = None →
  payload (definitionSiteEndpoint remote (length (requests s)) url) = Some site →
  definitionSites (globalState (stateAfter run s)) !! uri = Some site ∧
  again (stateAfter run s) = (result run s, stateAfter run s).
Proof.
  cbn zeta. intros Hu Hother Hmiss Hp. unfold result, stateAfter.
  rewrite (provideDefinitionFromLocationInfo_run _ _ _ _ _ Hu), Hmiss.
  cbn zeta. rewrite Hp. cbn [fst snd].
  rewrite (provideDefinitionFromLocationInfo_run _ _ _ _ _ Hother).
  cbn [globalState definitionSites setDefinitionSite].
  rewrite lookup_insert_eq. split; reflexivity.
Qed.

(** X7: a definition site that could not be fetched is not remembered: the
    caches are as before, and resolving the same location again sends the
    same request again. *)
Theorem definition_site_failure_retried (s : State)
    (locationInfo : hce.LocationInfo) (uri : string) :
  let run := provideDefinitionFromLocationInfo host remote locationInfo in
  let url := definitionSiteUrl host locationInfo in
  getDefinitionSiteUri locationInfo = Some uri →
  definitionSites (globalState s) !! uri = None →
  failed (definitionSiteEndpoint remote (length (requests s)) url) →
  result run s = undefined ∧
  globalState (stateAfter run s) = globalState s ∧
  sentBy run (stateAfter run s) = [url].
Proof.
  cbn zeta. unfold failed. intros Hu Hmiss Hp. unfold result, stateAfter.
  rewrite (provideDefinitionFromLocationInfo_run _ _ _ _ _ Hu), Hmiss.
  cbn zeta. rewrite Hp. cbn [fst snd globalState].
  split; [reflexivity|]. split; [reflexivity|].
  apply sentBy_app. unfold stateAfter.
  rewrite (provideDefinitionFromLocationInfo_run _ _ _ _ _ Hu).
  cbn [globalState]. rewrite Hmiss. cbn zeta. clear Hp.
  destruct (payload _); reflexivity.
Qed.

(** X8: from the cursor to the file.  When the word under the cursor is an
    occurrence, not a binder and not a module name, of an identifier whose
    location is approximate and not yet resolved, and the service answers
    with an exact location in a package of the registry, the provider
    sends the one request for the definition site, stores the site and
    returns the translation of that location.  When the folder joined with
    the module path is an ordinary absolute path, every coordinate of the
    answer is at least 1 and its start is not after its end, the host gets
    that path as the file, with every coordinate one less. *)
Theorem go_to_definition_end_to_end (isWindows : bool) (s : State)
    (document : TextDocument) (position : Position) (wordRange : Range)
    (moduleInfo : hce.ModuleInfo) (occurrence : hce.IdentifierOccurrence)
    (identifier : hce.IntentifierInfo) (uri folder : string) (doc : option string)
    (pkg : hce.PackageId) (modulePath moduleName : string)
    (startLine endLine startColumn endColumn : Z) :
  let run := provideDefinition host remote document position in
  let url := definitionSiteUrl host (hce.locationInfo identifier) in
  let exact :=
    hce.ExactLocation pkg modulePath moduleName startLine endLine
      startColumn endColumn in
  let call :=
    {| locationFile := folder +:+ "/" +:+ modulePath;
       locationRange :=
         mkRange (startLine - 1) (startColumn - 1) (endLine - 1) (endColumn - 1) |} in
  occurrenceFound host s document position wordRange moduleInfo occurrence →
  (∀ contents, hce.occSort occurrence ≠ hce.ModuleId contents) →
  identifierFound moduleInfo occurrence identifier →
  hce.isBinder occurrence = false →
  getDefinitionSiteUri (hce.locationInfo identifier) = Some uri →
  definitionSites (globalState s) !! uri = None →
  payload (definitionSiteEndpoint remote (length (requests s)) url) =
    Some {| hce.location := exact; hce.doc := doc |} →
  packageIdToFolderPath (globalState s) (packageIdToString pkg) = Some folder →
  folder ≠ "" →
  ordinaryPath isWindows (folder +:+ "/" +:+ modulePath) = true →
  (1 ≤ startLine)%Z → (1 ≤ startColumn)%Z → (1 ≤ endLine)%Z → (1 ≤ endColumn)%Z →
  notAfter startLine startColumn endLine endColumn →
  result run s = orNull (haskellLocationtoVscodeLocation (globalState s) exact) ∧
  result run s = value call ∧
  newLocation isWindows call =
    returned {| hostUri :=
                  {| uriAuthority := "";
                     uriFilePath := folder +:+ "/" +:+ modulePath |};
                hostRange :=
                  mkRange (startLine - 1) (startColumn - 1)
                    (endLine - 1) (endColumn - 1) |} ∧
  sentBy run s = [url] ∧
  definitionSites (globalState (stateAfter run s)) !! uri =
    Some {| hce.location := exact; hce.doc := doc |}.
Proof.
  cbn zeta.
  intros (Hword & Hline & Hmodule & Hocc) Hsort (internalId & Hid & Hident)
    Hbinder Hu Hmiss Hp Hfolder Hne Hpath H1 H2 H3 H4 Horder.
  assert (provideDefinition host remote document position s =
          provideDefinitionFromLocationInfo host remote
            (hce.locationInfo identifier) s) as Hrun.
  { rewrite (provideDefinition_found _ _ _ _ _ _ _ _ Hword Hmodule Hocc).
    apply Z.eqb_eq in Hline. rewrite Hline, Hid, Hident, Hbinder.
    destruct (hce.occSort occurrence) as [| |contents];
      [reflexivity | reflexivity | destruct (Hsort contents eq_refl)]. }
  unfold result, sentBy, stateAfter. rewrite Hrun.
  rewrite (provideDefinitionFromLocationInfo_run _ _ _ _ _ Hu), Hmiss.
  cbn zeta. rewrite Hp. cbn [fst snd hce.location isExact globalState requests].
  rewrite (haskellLocationtoVscodeLocation_call _ _ _ _ _ _ _ _ _ Hfolder Hne).
  split; [reflexivity|]. split; [reflexivity|]. split; [|split].
  - apply newLocation_ordinary; [exact Hpath|..]; try lia.
    destruct Horder as [?|[? ?]]; [left | right]; lia.
  - apply drop_app_length.
  - apply lookup_insert_eq.
Qed.

End ResolvingTwice.

Lemma definition_site_fetched_once_witness :
  let run := provideDefinitionFromLocationInfo exampleHost exampleRemote in
  run exampleAnchored (stateAfter (run exampleApproximate) exampleState) =
    (value {| locationFile := "/work/pkg/M.hs"; locationRange := mkRange 2 0 2 3 |},
     exampleWarmState) ∧
  run exampleIndirect (stateAfter (run exampleIndirect) exampleState) =
    (undefined, stateAfter (run exampleIndirect) exampleState).
Proof.
  cbn zeta. split.
  - exact (proj2 (definition_site_fetched_once exampleHost exampleRemote exampleState
                    exampleApproximate exampleAnchored "pkg-1.0/c1/M/Val/foo"
                    exampleSite eq_refl eq_refl eq_refl eq_refl)).
  - exact (proj2 (definition_site_fetched_once exampleHost exampleRemote exampleState
                    exampleIndirect exampleIndirect "pkg-1.0/c1/M/Val/bar"
                    {| hce.location := exampleApproximate; hce.doc := None |}
                    eq_refl eq_refl eq_refl eq_refl)).
Defined.

Lemma definition_site_failure_retried_witness :
  let run :=
    provideDefinitionFromLocationInfo exampleHost exampleRemote exampleUnindexed in
  result run exampleState = undefined ∧
  sentBy run (stateAfter run exampleState) =
    [ "http://localhost:8080/api/definitionSite/pkg-1.0/c1/M/Val/baz" ].
Proof.
  cbn zeta.
  destruct (definition_site_failure_retried exampleHost exampleRemote exampleState
              exampleUnindexed "pkg-1.0/c1/M/Val/baz" eq_refl eq_refl eq_refl)
    as (H1 & _ & H2).
  split; [exact H1 | exact H2].
Defined.

Lemma go_to_definition_end_to_end_witness :
  let call :=
    {| locationFile := "/work/pkg/M.hs"; locationRange := mkRange 2 0 2 3 |} in
  result (provideDefinition exampleHost exampleRemote exampleDocument examplePosition)
    (stateWithModule exampleUseModule) = value call ∧
  newLocation false call =
    returned {| hostUri := {| uriAuthority := ""; uriFilePath := "/work/pkg/M.hs" |};
                hostRange := mkRange 2 0 2 3 |}.
Proof.
  cbn zeta.
  assert (occurrenceFound exampleHost (stateWithModule exampleUseModule)
            exampleDocument examplePosition (mkRange 9 4 9 7) exampleUseModule
            exampleUse) as Hfound
    by (unfold occurrenceFound; repeat split; reflexivity).
  assert (identifierFound exampleUseModule exampleUse exampleImported) as Hident
    by (exists "x2"; split; reflexivity).
  assert (notAfter 3 1 3 4) as Horder by (right; lia).
  assert (∀ contents, hce.occSort exampleUse ≠ hce.ModuleId contents) as Hsort
    by (intros contents; discriminate).
  assert ("/work/pkg" ≠ "") as Hne by discriminate.
  destruct (go_to_definition_end_to_end exampleHost exampleRemote false
              (stateWithModule exampleUseModule) exampleDocument examplePosition
              (mkRange 9 4 9 7) exampleUseModule exampleUse exampleImported
              "pkg-1.0/c1/M/Val/foo" "/work/pkg" None examplePackage "M.hs" "M"
              3 3 1 4 Hfound Hsort Hident eq_refl eq_refl eq_refl eq_refl eq_refl
              Hne eq_refl ltac:(lia) ltac:(lia) ltac:(lia) ltac:(lia) Horder)
    as (_ & H1 & H2 & _).
  split; [exact H1 | exact H2].
Defined.

(** ** Find references *)

Section ReferenceProvider.

Context (host : Host) (remote : Remote).

(** The provider once the occurrence, the identifier and its external
    identifier are found. *)
Lemma provideReferences_found (choices : list nat) (s : State)
    (document : TextDocument) (position : Position) (wordRange : Range)
    (moduleInfo : hce.ModuleInfo) (occurrence : hce.IdentifierOccurrence)
    (identifier : hce.IntentifierInfo) (externalId : string) :
  occurrenceFound host s document position wordRange moduleInfo occurrence →
  identifierFound moduleInfo occurrence identifier →
  truthy (hce.externalId identifier) = Some externalId →
  provideReferences host remote choices document position s =
    match references (globalState s) !! externalId with
    | Some cachedReferences =>
        (value (haskellReferencesToVscodeLocations (globalState s) cachedReferences),
         s)
    | None =>
        let fetched := fetchAllReferences host remote choices externalId s in
        (match fetched.1 with
         | None => undefined
         | Some references =>
             value (haskellReferencesToVscodeLocations (globalState fetched.2)
                      references)
         end, fetched.2)
    end.
Proof.
  intros (Hword & Hline & Hmodule & Hocc) (internalId & Hid & Hident) Hext.
  unfold provideReferences. rewrite Hword.
  apply Z.eqb_eq in Hline. rewrite Hline. cbn [negb].
  unfold bind at 1, getGlobalState at 1.
  rewrite Hmodule, Hocc, Hid, Hident, Hext.
  destruct (references (globalState s) !! externalId); [reflexivity|].
  cbn zeta. unfold bind at 1.
  destruct (fetchAllReferences host remote choices externalId s) as [[refs|] s'];
    reflexivity.
Qed.

(** X9: the references of an external identifier are fetched once.  When
    the discovery succeeds, whatever the packages answer, the merged list is
    in the cache: asking again, for a binder or not, gives the same
    locations, sends nothing and leaves the state as it is; packages whose
    query failed are not asked again. *)
Theorem references_fetched_once (choices again : list nat) (s : State)
    (document : TextDocument) (position : Position) (wordRange : Range)
    (moduleInfo : hce.ModuleInfo) (occurrence : hce.IdentifierOccurrence)
    (identifier : hce.IntentifierInfo) (externalId : string)
    (globalReferences : list hce.GlobalReferences) :
  let first := provideReferences host remote choices document position in
  let second := provideReferences host remote again document position in
  let merged :=
    concat (contributions host remote externalId (length (requests s) + 1)
              globalReferences) in
  occurrenceFound host s document position wordRange moduleInfo occurrence →
  identifierFound moduleInfo occurrence identifier →
  truthy (hce.externalId identifier) = Some externalId →
  references (globalState s) !! externalId = None →
  payload (globalReferencesEndpoint remote (length (requests s))
             (globalReferencesUrl host externalId)) = Some globalReferences →
  result first s =
    value (haskellReferencesToVscodeLocations (globalState s) merged) ∧
  references (globalState (stateAfter first s)) !! externalId = Some merged ∧
  second (stateAfter first s) = (result first s, stateAfter first s).
Proof.
  cbn zeta. intros Hfound Hident Hext Hmiss Hp.
  unfold result, stateAfter.
  rewrite (provideReferences_found _ _ _ _ _ _ _ _ _ Hfound Hident Hext), Hmiss.
  cbn zeta. rewrite (fetchAllReferences_run _ _ _ _ _ _ Hp). cbn zeta. cbn [fst snd].
  split; [reflexivity|]. split; [apply lookup_insert_eq|].
  match goal with |- _ ?s' = _ => set (after := s') end.
  assert (occurrenceFound host after document position wordRange moduleInfo occurrence)
    as Hfound'.
  { destruct Hfound as (? & ? & ? & ?). repeat split; assumption. }
  rewrite (provideReferences_found _ _ _ _ _ _ _ _ _ Hfound' Hident Hext).
  subst after. cbn [globalState references setReferences].
  rewrite lookup_insert_eq. reflexivity.
Qed.

(** X10: a failed discovery is not remembered: nothing is returned, the
    caches are as before, and asking again sends the discovery request
    again. *)
Theorem references_failure_retried (choices again : list nat) (s : State)
    (document : TextDocument) (position : Position) (wordRange : Range)
    (moduleInfo : hce.ModuleInfo) (occurrence : hce.IdentifierOccurrence)
    (identifier : hce.IntentifierInfo) (externalId : string) :
  let first := provideReferences host remote choices document position in
  let second := provideReferences host remote again document position in
  occurrenceFound host s document position wordRange moduleInfo occurrence →
  identifierFound moduleInfo occurrence identifier →
  truthy (hce.externalId identifier) = Some externalId →
  references (globalState s) !! externalId = None →
  failed (globalReferencesEndpoint remote (length (requests s))
            (globalReferencesUrl host externalId)) →
  result first s = undefined ∧
  globalState (stateAfter first s) = globalState s ∧
  head (sentBy second (stateAfter first s)) = Some (globalReferencesUrl host externalId).
Proof.
  cbn zeta. intros Hfound Hident Hext Hmiss Hp.
  unfold result, stateAfter.
  rewrite (provideReferences_found _ _ _ _ _ _ _ _ _ Hfound Hident Hext), Hmiss.
  cbn zeta. rewrite (fetchAllReferences_failed _ _ _ _ _ Hp). cbn [fst snd globalState].
  split; [reflexivity|]. split; [reflexivity|].
  match goal with |- head (sentBy _ ?s') = _ => set (after := s') end.
  assert (occurrenceFound host after document position wordRange moduleInfo occurrence)
    as Hfound'.
  { destruct Hfound as (? & ? & ? & ?). repeat split; assumption. }
  unfold sentBy, stateAfter.
  rewrite (provideReferences_found _ _ _ _ _ _ _ _ _ Hfound' Hident Hext).
  assert (references (globalState after) !! externalId = None) as -> by exact Hmiss.
  cbn zeta. cbn [snd].
  destruct (payload (globalReferencesEndpoint remote (length (requests after))
                       (globalReferencesUrl host externalId))) as [gs|] eqn:Hq.
  - rewrite (fetchAllReferences_run _ _ _ _ _ _ Hq). cbn zeta. cbn [snd requests].
    rewrite drop_app_length. reflexivity.
  - rewrite (fetchAllReferences_failed _ _ _ _ _ Hq). cbn [snd requests].
    rewrite drop_app_length. reflexivity.
Qed.

End ReferenceProvider.

Lemma references_fetched_once_witness :
  let first :=
    provideReferences exampleHost exampleRemote [1%nat] exampleDocument
      examplePosition in
  let second :=
    provideReferences exampleHost exampleRemote [] exampleDocument examplePosition in
  let s := stateWithModule exampleUseModule in
  result first s =
    value [ {| locationFile := "/work/pkg/src/N.hs";
               locationRange := mkRange 11 4 11 7 |} ] ∧
  second (stateAfter first s) = (result first s, stateAfter first s).
Proof.
  cbn zeta.
  assert (occurrenceFound exampleHost (stateWithModule exampleUseModule)
            exampleDocument examplePosition (mkRange 9 4 9 7) exampleUseModule
            exampleUse) as Hfound
    by (unfold occurrenceFound; repeat split; reflexivity).
  assert (identifierFound exampleUseModule exampleUse exampleImported) as Hident
    by (exists "x2"; split; reflexivity).
  destruct (references_fetched_once exampleHost exampleRemote [1%nat] []
              (stateWithModule exampleUseModule) exampleDocument examplePosition
              (mkRange 9 4 9 7) exampleUseModule exampleUse exampleImported "foo"
              [ {| hce.count := 1; hce.packageId := "pkg-1.0" |};
                {| hce.count := 2; hce.packageId := "dep-0.2" |} ]
              Hfound Hident eq_refl eq_refl eq_refl) as (H1 & _ & H2).
  split; [exact H1 | exact H2].
Defined.

Lemma references_failure_retried_witness :
  let first :=
    provideReferences exampleHost exampleRemote [] exampleDocument examplePosition in
  result first exampleLaterState = undefined ∧
  head (sentBy first (stateAfter first exampleLaterState)) =
    Some "http://localhost:8080/api/globalReferences/foo".
Proof.
  cbn zeta.
  assert (occurrenceFound exampleHost exampleLaterState exampleDocument
            examplePosition (mkRange 9 4 9 7) exampleUseModule exampleUse) as Hfound
    by (unfold occurrenceFound; repeat split; reflexivity).
  assert (identifierFound exampleUseModule exampleUse exampleImported) as Hident
    by (exists "x2"; split; reflexivity).
  destruct (references_failure_retried exampleHost exampleRemote [] []
              exampleLaterState exampleDocument examplePosition (mkRange 9 4 9 7)
              exampleUseModule exampleUse exampleImported "foo"
              Hfound Hident eq_refl eq_refl eq_refl) as (H1 & _ & H2).
  split; [exact H1 | exact H2].
Defined.

(** ** A module that is not in the cache *)

Section ModuleMiss.

Context (host : Host) (remote : Remote).

(** X11: when the module of the document is not in the cache, the three
    providers return nothing and do what [fetchModuleInfo] does: nothing at
    all when no package of the registry contains the document, and otherwise
    the one request for the module in its closest package, whose answer,
    when it has data, is in the cache afterwards. *)
Theorem module_miss_prefetch (choices : list nat) (s : State)
    (document : TextDocument) (position : Position) (wordRange : Range)
    (data : hce.HaskellModuleResponse) (packageInfo : PackageInfo) :
  let prefetch := fetchModuleInfo host remote document in
  let url := haskellModuleUrl host packageInfo document in
  wordRangeAtPosition host document position = Some wordRange →
  posLine (rangeStart wordRange) = posLine (rangeEnd wordRange) →
  haskellModules (globalState s) !! uriPath document = None →
  provideDefinition host remote document position s =
    (undefined, stateAfter prefetch s) ∧
  provideReferences host remote choices document position s =
    (undefined, stateAfter prefetch s) ∧
  provideHover host remote document position s = (None, stateAfter prefetch s) ∧
  (lookupPackageInfo host (globalState s) document = None →
   stateAfter prefetch s = s) ∧
  (lookupPackageInfo host (globalState s) document = Some packageInfo →
   sentBy prefetch s = [url] ∧
   (payload (moduleEndpoint remote (length (requests s)) url) = Some data →
    haskellModules (globalState (stateAfter prefetch s)) !! uriPath document =
      Some {| hce.identifiers := hce.responseIdentifiers data;
              hce.occurrences := hce.responseOccurrences data |})).
Proof.
  cbn zeta. intros Hword Hline Hmiss. apply Z.eqb_eq in Hline.
  split; [|split; [|split; [|split]]].
  - unfold provideDefinition. rewrite Hword, Hline. cbn [negb].
    unfold bind at 1, getGlobalState at 1. rewrite Hmiss.
    unfold bind, stateAfter. destruct (fetchModuleInfo _ _ _ _). reflexivity.
  - unfold provideReferences. rewrite Hword, Hline. cbn [negb].
    unfold bind at 1, getGlobalState at 1. rewrite Hmiss.
    unfold bind, stateAfter. destruct (fetchModuleInfo _ _ _ _). reflexivity.
  - unfold provideHover. rewrite Hword, Hline. cbn [negb].
    unfold bind at 1, getGlobalState at 1. rewrite Hmiss.
    unfold bind, stateAfter. destruct (fetchModuleInfo _ _ _ _). reflexivity.
  - intros Hnone. unfold stateAfter. rewrite fetchModuleInfo_run, Hnone. reflexivity.
  - intros Hsome. split.
    + apply sentBy_app. unfold stateAfter at 1.
      rewrite fetchModuleInfo_run, Hsome. apply fetchHaskellModule_requests.
    + intros Hp. unfold stateAfter at 1. rewrite fetchModuleInfo_run, Hsome.
      cbn [snd]. unfold stateAfter. rewrite fetchHaskellModule_run. cbn zeta.
      rewrite Hp. apply lookup_insert_eq.
Qed.

End ModuleMiss.

Lemma module_miss_prefetch_witness :
  let prefetch := fetchModuleInfo exampleHost exampleRemote exampleDocument in
  (provideDefinition exampleHost exampleRemote exampleDocument examplePosition
     exampleOpenState = (undefined, stateAfter prefetch exampleOpenState) ∧
   sentBy prefetch exampleOpenState =
     [ "http://localhost:8080/files/pkg-1.0/.haskell-code-explorer/src/A.hs.json" ] ∧
   haskellModules (globalState (stateAfter prefetch exampleOpenState))
     !! "/work/pkg/src/A.hs" =
     Some {| hce.identifiers := ∅; hce.occurrences := ∅ |}) ∧
  (provideHover exampleHost exampleRemote exampleDocument examplePosition
     initialState = (None, stateAfter prefetch initialState) ∧
   stateAfter prefetch initialState = initialState).
Proof.
  cbn zeta. split.
  - destruct (module_miss_prefetch exampleHost exampleRemote [] exampleOpenState
                exampleDocument examplePosition (mkRange 9 4 9 7)
                exampleModuleResponse examplePackageInfo eq_refl eq_refl eq_refl)
      as (H1 & _ & _ & _ & H2).
    destruct (H2 eq_refl) as (H3 & H4).
    split; [exact H1|]. split; [exact H3 | exact (H4 eq_refl)].
  - destruct (module_miss_prefetch exampleHost exampleRemote [] initialState
                exampleDocument examplePosition (mkRange 9 4 9 7)
                exampleModuleResponse examplePackageInfo eq_refl eq_refl eq_refl)
      as (_ & _ & H1 & H2 & _).
    split; [exact H1 | exact (H2 eq_refl)].
Defined.

(** ** Hover *)

Lemma getModuleHoverInfo_truthy location :
  truthy (getModuleHoverInfo location) = getModuleHoverInfo location.
Proof. destruct location; reflexivity. Qed.

Section Hovering.

Context (host : Host) (remote : Remote).

(** X13: with the module in the cache, hovering only reads: it sends
    nothing and leaves the state as it is.  On a module name it shows the
    module, unless its location is unknown; on any other occurrence, binder
    or not, whose identifier the module knows, it always answers, for the
    range of the word, with the type of the identifier first and at most two
    further paragraphs. *)
Theorem hover_reads_only (s : State) (document : TextDocument)
    (position : Position) (wordRange : Range) (moduleInfo : hce.ModuleInfo)
    (occurrence : hce.IdentifierOccurrence) (identifier : hce.IntentifierInfo) :
  let run := provideHover host remote document position in
  occurrenceFound host s document position wordRange moduleInfo occurrence →
  stateAfter run s = s ∧
  match hce.occSort occurrence with
  | hce.ModuleId contents =>
      result run s =
        match getModuleHoverInfo contents with
        | Some hoverInfo =>
            Some {| hoverContents := [ CodeBlock "haskell" hoverInfo ];
                    hoverRange := wordRange |}
        | None => None
        end ∧
      (result run s = None ↔ contents = hce.UnknownLocation)
  | _ =>
      identifierFound moduleInfo occurrence identifier →
      ∃ more,
        result run s =
          Some {| hoverContents :=
                    CodeBlock "haskell"
                      (getExpressionType identifier (hce.idType identifier)) :: more;
                  hoverRange := wordRange |} ∧
        (length more ≤ 2)%nat
  end.
Proof.
  cbn zeta. intros (Hword & Hline & Hmodule & Hocc).
  apply Z.eqb_eq in Hline.
  assert (∃ r, provideHover host remote document position s = (r, s)) as [r Hr].
  { unfold provideHover. rewrite Hword, Hline. cbn [negb].
    unfold bind at 1, getGlobalState at 1. rewrite Hmodule, Hocc.
    destruct (hce.occSort occurrence);
      try (destruct (truthy (getModuleHoverInfo _)); eexists; reflexivity);
      (destruct (truthy _) as [i|]; [|eexists; reflexivity];
       destruct (_ !! i) as [ident|]; eexists; reflexivity). }
  split; [unfold stateAfter; rewrite Hr; reflexivity|]. clear r Hr.
  destruct (hce.occSort occurrence) as [| |contents] eqn:Hsort.
  - intros (i & Hi & Hident).
    unfold result, provideHover. rewrite Hword, Hline. cbn [negb].
    unfold bind at 1, getGlobalState at 1. rewrite Hmodule, Hocc, Hsort, Hi, Hident.
    destruct (hce.idOccType occurrence), (hce.locationInfo identifier);
      eexists; (split; [reflexivity | cbn; lia]).
  - intros (i & Hi & Hident).
    unfold result, provideHover. rewrite Hword, Hline. cbn [negb].
    unfold bind at 1, getGlobalState at 1. rewrite Hmodule, Hocc, Hsort, Hi, Hident.
    destruct (hce.idOccType occurrence), (hce.locationInfo identifier);
      eexists; (split; [reflexivity | cbn; lia]).
  - assert (result (provideHover host remote document position) s =
            match getModuleHoverInfo contents with
            | Some hoverInfo =>
                Some {| hoverContents := [ CodeBlock "haskell" hoverInfo ];
                        hoverRange := wordRange |}
            | None => None
            end) as ->.
    { unfold result, provideHover. rewrite Hword, Hline. cbn [negb].
      unfold bind at 1, getGlobalState at 1. rewrite Hmodule, Hocc, Hsort.
      rewrite getModuleHoverInfo_truthy.
      destruct (getModuleHoverInfo contents); reflexivity. }
    split; [reflexivity|].
    destruct contents; cbn; split; intros H; try discriminate H; reflexivity.
Qed.

End Hovering.

Lemma hover_reads_only_witness :
  let run := provideHover exampleHost exampleRemote exampleDocument examplePosition in
  stateAfter run (stateWithModule exampleUseModule) = stateWithModule exampleUseModule ∧
  ∃ more,
    result run (stateWithModule exampleUseModule) =
      Some {| hoverContents := CodeBlock "haskell" "foo :: Int -> Bool" :: more;
              hoverRange := mkRange 9 4 9 7 |} ∧
    (length more ≤ 2)%nat.
Proof.
  assert (occurrenceFound exampleHost (stateWithModule exampleUseModule)
            exampleDocument examplePosition (mkRange 9 4 9 7) exampleUseModule
            exampleUse) as Hfound
    by (unfold occurrenceFound; repeat split; reflexivity).
  destruct (hover_reads_only exampleHost exampleRemote
              (stateWithModule exampleUseModule) exampleDocument examplePosition
              (mkRange 9 4 9 7) exampleUseModule exampleUse exampleImported Hfound)
    as (Hstate & H).
  split; [exact Hstate|].
  exact (H (ex_intro _ "x2" (conj eq_refl eq_refl))).
Defined.

(** ** Package manifests *)

Lemma splitLines_not_nil str : splitLines str ≠ [].
Proof.
  destruct str as [|c rest]; [discriminate|]. cbn [splitLines].
  destruct (Ascii.eqb c "010"); [discriminate|].
  destruct (Ascii.eqb c "013"); [destruct rest as [|c' rest']|];
    try destruct (Ascii.eqb c' "010"); try discriminate;
    destruct (splitLines _); discriminate.
Qed.

Lemma splitLines_no_line_feed_upto (n : nat) :
  ∀ str, (String.length str ≤ n)%nat →
    Forall (λ line, occursIn "010" line = false) (splitLines str).
Proof.
  assert (∀ c rest,
            Ascii.eqb c "010" = false →
            Forall (λ line, occursIn "010" line = false) (splitLines rest) →
            Forall (λ line, occursIn "010" line = false)
              match splitLines rest with
              | line :: lines => String c line :: lines
              | [] => [String c EmptyString]
              end) as Hcontinue.
  { intros c rest Hc Hrest. destruct (splitLines rest) as [|line lines].
    - constructor; [|constructor]. cbn [occursIn]. rewrite Ascii.eqb_sym, Hc. reflexivity.
    - inversion Hrest; subst. constructor; [|assumption].
      cbn [occursIn]. rewrite Ascii.eqb_sym, Hc. assumption. }
  induction n as [|n IH]; intros [|c rest] Hlen;
    try (constructor; [reflexivity | constructor]).
  - cbn in Hlen. lia.
  - cbn in Hlen. cbn [splitLines].
    destruct (Ascii.eqb c "010") eqn:Hc.
    { constructor; [reflexivity | apply IH; lia]. }
    destruct (Ascii.eqb c "013").
    + destruct rest as [|c' rest'].
      * constructor; [|constructor]. cbn [occursIn]. rewrite Ascii.eqb_sym, Hc. reflexivity.
      * destruct (Ascii.eqb c' "010").
        -- constructor; [reflexivity | apply IH; cbn in Hlen; lia].
        -- apply Hcontinue; [exact Hc | apply IH; lia].
    + apply Hcontinue; [exact Hc | apply IH; lia].
Qed.

Lemma join_cons_head sep c p l :
  join sep (String c p :: l) = String c (join sep (p :: l)).
Proof. destruct l; reflexivity. Qed.

(** X14: the lines of a manifest: there is always at least one, none
    contains a line feed, and for contents without carriage return joining
    the lines with line feeds gives the contents back. *)
Theorem splitLines_lines (str : string) :
  splitLines str ≠ [] ∧
  Forall (λ line, occursIn "010" line = false) (splitLines str) ∧
  (occursIn "013" str = false → join newline (splitLines str) = str).
Proof.
  split; [apply splitLines_not_nil|].
  split; [apply (splitLines_no_line_feed_upto (String.length str)); lia|].
  induction str as [|c rest IH]; [reflexivity|].
  intros Hcr. cbn [occursIn] in Hcr. apply orb_false_elim in Hcr as [Hc Hrest].
  specialize (IH Hrest). cbn [splitLines].
  rewrite Ascii.eqb_sym in Hc. rewrite Hc.
  pose proof (splitLines_not_nil rest) as Hnil.
  destruct (Ascii.eqb_spec c "010") as [->|_].
  - destruct (splitLines rest) as [|line lines]; [contradiction|].
    change (join newline (EmptyString :: line :: lines))
      with (String "010" (join newline (line :: lines))).
    rewrite IH. reflexivity.
  - destruct (splitLines rest) as [|line lines]; [contradiction|].
    rewrite join_cons_head, IH. reflexivity.
Qed.

Lemma splitLines_lines_witness :
  join newline (splitLines ("name: pkg" +:+ newline +:+ "version: 1.0")) =
  "name: pkg" +:+ newline +:+ "version: 1.0".
Proof.
  apply (splitLines_lines ("name: pkg" +:+ newline +:+ "version: 1.0")).
  reflexivity.
Defined.

Lemma stripPrefix_Some prefix : ∀ str rest,
  stripPrefix prefix str = Some rest → str = prefix +:+ rest.
Proof.
  induction prefix as [|p prefix IH]; intros [|c str] rest H; cbn in H;
    try discriminate; try (injection H as <-; reflexivity).
  destruct (Ascii.eqb_spec p c) as [->|]; [|discriminate].
  change (String c str = String c (prefix +:+ rest)). f_equal. apply IH. exact H.
Qed.

Lemma stripPrefix_app prefix rest : stripPrefix prefix (prefix +:+ rest) = Some rest.
Proof.
  induction prefix as [|p prefix IH]; [destruct rest; reflexivity|].
  change (stripPrefix (String p prefix) (String p (prefix +:+ rest)) = Some rest).
  cbn [stripPrefix]. rewrite Ascii.eqb_refl. exact IH.
Qed.

(** The first [k] characters of a string that starts with at least [k]
    characters satisfying [f]. *)
Lemma span_split (f : ascii → bool) (k : nat) : ∀ str,
  (k ≤ spanLength f str)%nat →
  ∃ front, str = front +:+ dropString k str ∧ String.length front = k ∧
           allChars f front = true.
Proof.
  induction k as [|k IH]; intros str Hk.
  - exists EmptyString. destruct str; repeat split.
  - destruct str as [|c str]; [cbn in Hk; lia|].
    cbn [spanLength] in Hk. destruct (f c) eqn:Hc; [|lia].
    destruct (IH str) as (front & Hsplit & Hlen & Hall); [lia|].
    exists (String c front). cbn [dropString]. repeat split.
    + change (String c str = String c (front +:+ dropString k str)).
      f_equal. exact Hsplit.
    + cbn. f_equal. exact Hlen.
    + cbn. rewrite Hc, Hall. reflexivity.
Qed.

Lemma takeWhile_split (f : ascii → bool) (str : string) :
  ∃ rest, str = takeWhile f str +:+ rest ∧
          allChars f (takeWhile f str) = true ∧
          (rest = EmptyString ∨ ∃ c rest', rest = String c rest' ∧ f c = false).
Proof.
  induction str as [|c str (rest & Hsplit & Hall & Hrest)].
  - exists EmptyString. repeat split. left. reflexivity.
  - cbn [takeWhile]. destruct (f c) eqn:Hc.
    + exists rest.
      split; [change (String c str = String c (takeWhile f str +:+ rest));
              f_equal; exact Hsplit|].
      split; [cbn; rewrite Hc, Hall; reflexivity | exact Hrest].
    + exists (String c str). repeat split. right. eauto.
Qed.

Lemma matchAfterSpaces_sound (k : nat) : ∀ rest value,
  (k ≤ spanLength isWhiteSpace rest)%nat →
  matchAfterSpaces k rest = Some value →
  ∃ spaces c tail,
    rest = spaces +:+ String c tail ∧ spaces ≠ EmptyString ∧
    allChars isWhiteSpace spaces = true ∧ isLineTerminator c = false ∧
    value = takeWhile (λ c, negb (isLineTerminator c)) (String c tail).
Proof.
  induction k as [|k IH]; intros rest value Hk H; [discriminate|].
  cbn [matchAfterSpaces] in H.
  destruct (dropString (S k) rest) as [|c tail] eqn:Hdrop.
  - apply IH; [lia | exact H].
  - destruct (isLineTerminator c) eqn:Hc; [apply IH; [lia | exact H]|].
    injection H as <-.
    destruct (span_split isWhiteSpace (S k) rest Hk) as (spaces & Hsplit & Hlen & Hall).
    exists spaces, c, tail. rewrite Hdrop in Hsplit.
    repeat split; try assumption.
    intros ->. discriminate Hlen.
Qed.

Lemma spanLength_app (f : ascii → bool) spaces c tail :
  allChars f spaces = true → f c = false →
  spanLength f (spaces +:+ String c tail) = String.length spaces.
Proof.
  intros Hall Hc. induction spaces as [|a spaces IH].
  - change (spanLength f (String c tail) = O). cbn. rewrite Hc. reflexivity.
  - cbn in Hall. apply andb_prop in Hall as [Ha Hall].
    change (spanLength f (String a (spaces +:+ String c tail)) =
            S (String.length spaces)).
    cbn [spanLength]. rewrite Ha, IH by exact Hall. reflexivity.
Qed.

Lemma dropString_app spaces rest :
  dropString (String.length spaces) (spaces +:+ rest) = rest.
Proof.
  induction spaces as [|a spaces IH]; [destruct rest; reflexivity | exact IH].
Qed.

Lemma white_space_of_terminator c : isLineTerminator c = true → isWhiteSpace c = true.
Proof.
  unfold isLineTerminator, isWhiteSpace. intros H.
  apply orb_prop in H as [->| ->]; rewrite ?orb_true_r; reflexivity.
Qed.

Lemma matchField_value_sound (field line value : string) :
  matchField field line = Some value →
  (
   value ≠ EmptyString ∧
   allChars (λ c, negb (isLineTerminator c)) value = true ∧
   ∃ spaces' rest,
     line = field +:+ spaces' +:+ value +:+ rest ∧
     spaces' ≠ EmptyString ∧ allChars isWhiteSpace spaces' = true ∧
     (rest = EmptyString ∨
      ∃ c' rest', rest = String c' rest' ∧ isLineTerminator c' = true)).
Proof.
  unfold matchField. destruct (stripPrefix field line) as [rest0|] eqn:Hstrip;
    [|discriminate].
  intros H. apply stripPrefix_Some in Hstrip as ->.
  destruct (matchAfterSpaces_sound _ _ _ (Nat.le_refl _) H)
    as (spaces' & c' & tail' & -> & Hne & Hall & Hc' & ->).
  destruct (takeWhile_split (λ c, negb (isLineTerminator c)) (String c' tail'))
    as (rest & Hsplit & Hvalue & Hrest).
  split; [cbn [takeWhile]; rewrite Hc'; discriminate|].
  split; [exact Hvalue|].
  exists spaces', rest. split; [rewrite <- Hsplit; reflexivity|].
  split; [exact Hne|]. split; [exact Hall|].
  destruct Hrest as [->|(c'' & rest' & -> & Hc'')]; [left; reflexivity|].
  right. exists c'', rest'. split; [reflexivity|].
  apply negb_false_iff. exact Hc''.
Qed.

(** X15: what a line gives for a field.  A value is found only in a line
    that starts with the field, written exactly so, followed by white
    space; the value is never empty and ends where the line does, or at a
    carriage return.  A line made of the field, white space and a text
    that starts with a character other than white space gives that text, up
    to the first line terminator, with the spaces that follow it. *)
Theorem matchField_value (field line value spaces : string) (c : ascii)
    (tail : string) :
  (matchField field line = Some value →
   value ≠ EmptyString ∧
   allChars (λ c, negb (isLineTerminator c)) value = true ∧
   ∃ spaces' rest,
     line = field +:+ spaces' +:+ value +:+ rest ∧
     spaces' ≠ EmptyString ∧ allChars isWhiteSpace spaces' = true ∧
     (rest = EmptyString ∨
      ∃ c' rest', rest = String c' rest' ∧ isLineTerminator c' = true)) ∧
  (spaces ≠ EmptyString → allChars isWhiteSpace spaces = true →
   isWhiteSpace c = false →
   matchField field (field +:+ spaces +:+ String c tail) =
     Some (takeWhile (λ c, negb (isLineTerminator c)) (String c tail))).
Proof.
  split.
  - exact (matchField_value_sound field line value).
  - intros Hne Hall Hc. unfold matchField. rewrite stripPrefix_app.
    rewrite (spanLength_app _ _ _ _ Hall Hc).
    destruct spaces as [|a spaces]; [contradiction|].
    cbn [String.length matchAfterSpaces].
    change (S (String.length spaces)) with (String.length (String a spaces)).
    rewrite dropString_app.
    destruct (isLineTerminator c) eqn:Hterm; [|reflexivity].
    rewrite (white_space_of_terminator _ Hterm) in Hc. discriminate.
Qed.

Lemma matchField_value_witness :
  matchField "name:" "name:    pkg  " = Some "pkg  " ∧
  ∃ spaces rest,
    "name:    pkg  " = "name:" +:+ spaces +:+ "pkg  " +:+ rest ∧
    spaces ≠ EmptyString.
Proof.
  destruct (matchField_value "name:" "name:    pkg  " "pkg  " "    " "p" "kg  ")
    as (Hsound & Hcomplete).
  split.
  - apply Hcomplete; [discriminate | reflexivity | reflexivity].
  - destruct (Hsound eq_refl) as (_ & _ & spaces & rest & Hline & Hne & _).
    exists spaces, rest. split; [exact Hline | exact Hne].
Defined.

Lemma name_line_is_no_version_line line value :
  matchField "name:" line = Some value → matchField "version:" line = None.
Proof.
  unfold matchField. destruct line as [|c line]; [discriminate|]. cbn [stripPrefix].
  destruct (Ascii.eqb_spec "n" c) as [<-|]; [reflexivity | discriminate].
Qed.

Lemma scanLine_fold (lines : list string) : ∀ name version,
  foldl scanLine (name, version) lines =
    (match lastField "name:" lines with Some n => Some n | None => name end,
     match lastField "version:" lines with Some v => Some v | None => version end).
Proof.
  unfold lastField.
  induction lines as [|line lines IH]; intros name version; [reflexivity|].
  cbn [foldl omap list_omap]. unfold scanLine at 2. cbn [fst snd].
  destruct (matchField "name:" line) as [n|] eqn:Hname.
  - rewrite (name_line_is_no_version_line _ _ Hname), IH, last_cons.
    destruct (list.last (omap (matchField "name:") lines)); reflexivity.
  - destruct (matchField "version:" line) as [v|] eqn:Hversion.
    + rewrite IH, last_cons.
      destruct (list.last (omap (matchField "version:") lines)); reflexivity.
    + apply IH.
Qed.

Lemma lastField_nonempty field lines value :
  lastField field lines = Some value → value ≠ EmptyString.
Proof.
  unfold lastField. intros H. apply last_Some in H as [front H].
  assert (value ∈ omap (matchField field) lines) as Hin.
  { rewrite H. apply elem_of_app. right. left. }
  apply list_elem_of_omap in Hin as (line & _ & Hline).
  exact (proj1 (matchField_value_sound field line value Hline)).
Qed.

(** X16: the identity of a manifest has the value of the last line that
    gives a name and the value of the last line that gives a version; a
    manifest in which no line gives a name, or no line gives a version, has
    no identity. *)
Theorem getPackageIdFromCabalContents_last (cabalContents : string) :
  getPackageIdFromCabalContents cabalContents =
    match lastField "name:" (splitLines cabalContents),
          lastField "version:" (splitLines cabalContents) with
    | Some name, Some version =>
        Some {| hce.name := name; hce.version := version |}
    | _, _ => None
    end.
Proof.
  unfold getPackageIdFromCabalContents. cbn zeta. rewrite scanLine_fold. cbn [fst snd].
  destruct (lastField "name:" _) as [name|] eqn:Hname; [|reflexivity].
  rewrite (truthy_Some _ (lastField_nonempty _ _ _ Hname)).
  destruct (lastField "version:" _) as [version|] eqn:Hversion; [|reflexivity].
  rewrite (truthy_Some _ (lastField_nonempty _ _ _ Hversion)). reflexivity.
Qed.

Lemma collect_fold (workspace : Workspace) (cabalFiles : list string) :
  ∀ packages,
    foldl
      (λ packages cabalFile,
         match readPackageIdFromCabalFile workspace cabalFile with
         | None => packages
         | Some packageId =>
             (packages ++
              [ {| packageId := packageId;
                   packageFolder := pathDirname workspace cabalFile |} ])%list
         end)
      packages cabalFiles =
    (packages ++
     omap (λ cabalFile,
             (λ packageId,
                {| packageId := packageId;
                   packageFolder := pathDirname workspace cabalFile |})
               <$> readPackageIdFromCabalFile workspace cabalFile)
       cabalFiles)%list.
Proof.
  induction cabalFiles as [|cabalFile rest IH]; intros packages; cbn.
  - rewrite app_nil_r. reflexivity.
  - rewrite IH. destruct (readPackageIdFromCabalFile workspace cabalFile); cbn.
    + rewrite <- app_assoc. reflexivity.
    + reflexivity.
Qed.

(** X17: loading the packages replaces the registry and nothing else: the
    caches and the requests are as before.  The new registry has, in the
    order in which the manifests were found, one package for each manifest
    that is a file and has a name and a version, with the folder of that
    manifest; every other manifest is skipped. *)
Theorem loadPackagesInfo_registry (workspace : Workspace) (s : State) :
  let after := stateAfter (loadPackagesInfo workspace) s in
  haskellPackages (globalState after) =
    omap (λ uri,
            if bool_decide (scheme uri = "file") then
              (λ packageId,
                 {| packageId := packageId;
                    packageFolder := pathDirname workspace (path uri) |})
                <$> getPackageIdFromCabalContents
                      (readFileSync workspace (path uri))
            else None)
      (findFiles workspace) ∧
  haskellModules (globalState after) = haskellModules (globalState s) ∧
  definitionSites (globalState after) = definitionSites (globalState s) ∧
  references (globalState after) = references (globalState s) ∧
  requests after = requests s.
Proof.
  cbn zeta. repeat split.
  cbn. unfold collectPackages. cbn zeta. rewrite collect_fold. cbn [app].
  unfold readPackageIdFromCabalFile.
  induction (findFiles workspace) as [|uri uris IH]; [reflexivity|].
  rewrite filter_cons. cbn [omap list_omap].
  destruct (decide (scheme uri = "file")) as [Hfile|Hfile].
  - rewrite bool_decide_eq_true_2 by exact Hfile. cbn [map omap list_omap].
    rewrite IH. reflexivity.
  - rewrite bool_decide_eq_false_2 by exact Hfile. exact IH.
Qed.

(** ** Translating references *)



(** ** The requests of a fan-out, and a registry that changes *)

Section FanOut.

Context (host : Host) (remote : Remote).

(** X19: when the discovery succeeds, the requests of a search are the
    discovery request and then one request for each package of the
    discovery, in its order, a package listed twice being asked twice; no
    other request follows.  A discovery without any package stores the
    empty list, which is what is returned from then on. *)
Theorem fan_out_requests (choices : list nat) (s : State) (externalId : string)
    (globalReferences : list hce.GlobalReferences) :
  let run := fetchAllReferences host remote choices externalId in
  payload (globalReferencesEndpoint remote (length (requests s))
             (globalReferencesUrl host externalId)) = Some globalReferences →
  sentBy run s =
    globalReferencesUrl host externalId ::
    map (λ globalReference,
           referencesUrl host (hce.packageId globalReference) externalId)
      globalReferences ∧
  (globalReferences = [] →
   result run s = Some [] ∧
   references (globalState (stateAfter run s)) !! externalId = Some []).
Proof.
  cbn zeta. intros Hp. split.
  - apply sentBy_app. unfold stateAfter.
    rewrite (fetchAllReferences_run _ _ _ _ _ _ Hp). reflexivity.
  - intros ->. unfold result, stateAfter.
    rewrite (fetchAllReferences_run _ _ _ _ _ _ Hp). cbn.
    split; [reflexivity | apply lookup_insert_eq].
Qed.

(** X20: what the caches hold is translated when it is asked for, with the
    registry of that moment.  After the packages have been loaded again, a
    definition site and a list of references that are in the cache are
    answered without any request, with the folders of the new registry. *)
Theorem reload_applies_to_cached (workspace : Workspace) (choices : list nat)
    (s : State) (locationInfo : hce.LocationInfo) (uri : string)
    (site : hce.DefinitionSite) (document : TextDocument) (position : Position)
    (wordRange : Range) (moduleInfo : hce.ModuleInfo)
    (occurrence : hce.IdentifierOccurrence) (identifier : hce.IntentifierInfo)
    (externalId : string) (cachedReferences : list ReferenceWithPackageId) :
  let reloaded := stateAfter (loadPackagesInfo workspace) s in
  let registry := setHaskellPackages (collectPackages workspace) (globalState s) in
  (getDefinitionSiteUri locationInfo = Some uri →
   definitionSites (globalState s) !! uri = Some site →
   isExact (hce.location site) = true →
   provideDefinitionFromLocationInfo host remote locationInfo reloaded =
     (orNull (haskellLocationtoVscodeLocation registry (hce.location site)),
      reloaded)) ∧
  (occurrenceFound host s document position wordRange moduleInfo occurrence →
   identifierFound moduleInfo occurrence identifier →
   truthy (hce.externalId identifier) = Some externalId →
   references (globalState s) !! externalId = Some cachedReferences →
   provideReferences host remote choices document position reloaded =
     (value (haskellReferencesToVscodeLocations registry cachedReferences),
      reloaded)).
Proof.
  cbn zeta. split.
  - intros Hu Hc Hx.
    rewrite (provideDefinitionFromLocationInfo_run _ _ _ _ _ Hu).
    cbn [stateAfter loadPackagesInfo modifyGlobalState snd globalState
         setHaskellPackages definitionSites].
    rewrite Hc, Hx. reflexivity.
  - intros (Hword & Hline & Hmodule & Hocc) Hident Hext Hc.
    assert (occurrenceFound host (stateAfter (loadPackagesInfo workspace) s)
              document position wordRange moduleInfo occurrence) as Hfound
      by (repeat split; assumption).
    rewrite (provideReferences_found _ _ _ _ _ _ _ _ _ _ _ Hfound Hident Hext).
    cbn [stateAfter loadPackagesInfo modifyGlobalState snd globalState
         setHaskellPackages references].
    rewrite Hc. reflexivity.
Qed.

End FanOut.

Lemma fan_out_requests_witness :
  sentBy (fetchAllReferences exampleHost exampleRemote [1%nat] "foo") exampleState =
    [ "http://localhost:8080/api/globalReferences/foo";
      "http://localhost:8080/api/references/pkg-1.0/foo?per_page=500";
      "http://localhost:8080/api/references/dep-0.2/foo?per_page=500" ].
Proof.
  exact (proj1 (fan_out_requests exampleHost exampleRemote [1%nat] exampleState "foo"
                  [ {| hce.count := 1; hce.packageId := "pkg-1.0" |};
                    {| hce.count := 2; hce.packageId := "dep-0.2" |} ] eq_refl)).
Defined.

Lemma reload_applies_to_cached_witness :
  provideDefinitionFromLocationInfo exampleHost exampleRemote exampleApproximate
    (stateAfter (loadPackagesInfo movedWorkspace) exampleWarmState) =
  (value {| locationFile := "/moved/pkg/M.hs"; locationRange := mkRange 2 0 2 3 |},
   stateAfter (loadPackagesInfo movedWorkspace) exampleWarmState).
Proof.
  exact (proj1 (reload_applies_to_cached exampleHost exampleRemote movedWorkspace []
                  exampleWarmState exampleApproximate "pkg-1.0/c1/M/Val/foo"
                  exampleSite exampleDocument examplePosition (mkRange 9 4 9 7)
                  exampleUseModule exampleUse exampleImported "foo" [])
           eq_refl eq_refl eq_refl).
Defined.

(** ** A module request and its response *)

Lemma grows_keeps s s' : grows s s' → keeps s s'.
Proof.
  intros (Hregistry & Hrequests & Hmodules & Hsites & Hreferences).
  repeat split; try assumption; apply subseteq_dom; assumption.
Qed.

(** Steps follow one another in any order: what holds of each holds of the
    whole sequence. *)
Lemma keeps_trans s1 s2 s3 : keeps s1 s2 → keeps s2 s3 → keeps s1 s3.
Proof.
  intros (H1 & H2 & H3 & H4 & H5) (K1 & K2 & K3 & K4 & K5).
  repeat split.
  - rewrite K1. exact H1.
  - etrans; eassumption.
  - etrans; eassumption.
  - etrans; eassumption.
  - etrans; eassumption.
Qed.

Lemma receiveHaskellModule_run (pending : PendingModule) (s : State) :
  receiveHaskellModule pending s =
    match pendingData pending with
    | None => (None, s)
    | Some data =>
        let moduleInfo :=
          {| hce.identifiers := hce.responseIdentifiers data;
             hce.occurrences := hce.responseOccurrences data |} in
        (Some moduleInfo,
         {| globalState :=
              setHaskellModule (pendingPath pending) moduleInfo (globalState s);
            requests := requests s |})
    end.
Proof.
  unfold receiveHaskellModule. destruct (pendingData pending) as [data|];
    [|reflexivity].
  rewrite !mapFromObject_id. reflexivity.
Qed.

Section ModuleRequest.

Context (host : Host) (remote : Remote).

Lemma callFetchModuleInfo_run (document : TextDocument) (s : State) :
  callFetchModuleInfo host remote document s =
    match lookupPackageInfo host (globalState s) document with
    | None => (None, s)
    | Some packageInfo =>
        let url := haskellModuleUrl host packageInfo document in
        (Some {| pendingPath := uriPath document;
                 pendingData :=
                   payload (moduleEndpoint remote (length (requests s)) url) |},
         {| globalState := globalState s; requests := requests s ++ [url] |})
    end.
Proof.
  unfold callFetchModuleInfo, bind at 1, getGlobalState at 1.
  destruct (lookupPackageInfo _ _ _) as [packageInfo|]; [|reflexivity].
  unfold requestHaskellModule, bind. rewrite fetch_run. reflexivity.
Qed.

Lemma callMaybeFetchModuleInfo_run (document : TextDocument) (s : State) :
  callMaybeFetchModuleInfo host remote document s =
    if isHaskellFile document then
      match haskellModules (globalState s) !! uriPath document with
      | Some _ => (None, s)
      | None => callFetchModuleInfo host remote document s
      end
    else (None, s).
Proof.
  unfold callMaybeFetchModuleInfo.
  destruct (isHaskellFile document); [|reflexivity]. cbn [negb].
  unfold bind at 1, getGlobalState at 1.
  destruct (haskellModules (globalState s) !! uriPath document) eqn:Hm.
  - rewrite bool_decide_eq_true_2 by eauto. reflexivity.
  - rewrite bool_decide_eq_false_2 by (intros [? ?]; discriminate). reflexivity.
Qed.

(** [fetchModuleInfo] is the call followed at once by the arrival of the
    response. *)
Lemma fetchModuleInfo_split (document : TextDocument) (s : State) :
  fetchModuleInfo host remote document s =
    (let* pending := callFetchModuleInfo host remote document in
     receivePending pending) s.
Proof.
  unfold bind. rewrite fetchModuleInfo_run, callFetchModuleInfo_run.
  destruct (lookupPackageInfo _ _ _) as [packageInfo|]; [|reflexivity].
  cbn zeta. unfold receivePending, bind, stateAfter.
  rewrite fetchHaskellModule_run, receiveHaskellModule_run.
  cbn [pendingData pendingPath]. cbn zeta.
  destruct (payload _); reflexivity.
Qed.

(** X12: opening a document.  Nothing is sent for a document that is not a
    Haskell file, whose module is in the cache, or that no package
    contains.  Otherwise the request for the module is sent and no cache is
    changed until the response arrives: opening the document again before
    that sends the same request again.  Once a response with data has
    arrived, the module is in the cache and opening the document again
    sends nothing. *)
Theorem module_requested_until_cached (s : State) (document : TextDocument)
    (packageInfo : PackageInfo) (data : hce.HaskellModuleResponse) :
  let open := callMaybeFetchModuleInfo host remote document in
  let url := haskellModuleUrl host packageInfo document in
  let pending := {| pendingPath := uriPath document; pendingData := Some data |} in
  (isHaskellFile document = false ∨
   is_Some (haskellModules (globalState s) !! uriPath document) ∨
   lookupPackageInfo host (globalState s) document = None →
   open s = (None, s)) ∧
  (isHaskellFile document = true →
   haskellModules (globalState s) !! uriPath document = None →
   lookupPackageInfo host (globalState s) document = Some packageInfo →
   sentBy open s = [url] ∧
   globalState (stateAfter open s) = globalState s ∧
   sentBy open (stateAfter open s) = [url] ∧
   (payload (moduleEndpoint remote (length (requests s)) url) = Some data →
    result open s = Some pending ∧
    let received := stateAfter (receivePending (Some pending)) (stateAfter open s) in
    haskellModules (globalState received) !! uriPath document =
      Some {| hce.identifiers := hce.responseIdentifiers data;
              hce.occurrences := hce.responseOccurrences data |} ∧
    open received = (None, received))).
Proof.
  cbn zeta. split.
  - intros H. rewrite callMaybeFetchModuleInfo_run.
    destruct (isHaskellFile document); [|reflexivity].
    destruct (haskellModules (globalState s) !! uriPath document) eqn:Hm;
      [reflexivity|].
    destruct H as [H|[[? H]|H]]; try discriminate.
    rewrite callFetchModuleInfo_run, H. reflexivity.
  - destruct s as [g sent]. cbn [globalState requests].
    intros Hhs Hmiss Hpkg.
    assert (∀ sent',
              callMaybeFetchModuleInfo host remote document
                {| globalState := g; requests := sent' |} =
              (Some {| pendingPath := uriPath document;
                       pendingData :=
                         payload (moduleEndpoint remote (length sent')
                                    (haskellModuleUrl host packageInfo document)) |},
               {| globalState := g;
                  requests :=
                    sent' ++ [haskellModuleUrl host packageInfo document] |}))
      as Hrun.
    { intros sent'. rewrite callMaybeFetchModuleInfo_run, Hhs.
      cbn [globalState]. rewrite Hmiss, callFetchModuleInfo_run.
      cbn [globalState]. rewrite Hpkg. reflexivity. }
    unfold result, sentBy, stateAfter.
    rewrite !Hrun. cbn [fst snd globalState requests]. rewrite !Hrun.
    cbn [snd requests]. rewrite !drop_app_length.
    split; [reflexivity|]. split; [reflexivity|]. split; [reflexivity|].
    intros Hp. rewrite Hp. split; [reflexivity|].
    unfold receivePending, bind, ret. rewrite receiveHaskellModule_run.
    cbn [pendingData pendingPath snd globalState requests haskellModules
         setHaskellModule].
    cbn zeta.
    cbn [snd globalState requests haskellModules setHaskellModule].
    split; [apply lookup_insert_eq|].
    rewrite callMaybeFetchModuleInfo_run, Hhs.
    cbn [globalState haskellModules setHaskellModule].
    rewrite lookup_insert_eq. reflexivity.
Qed.

(** X5: nothing is ever taken out.  Go to definition, find references,
    hover and the opening of a document, each taken with the arrival of the
    responses it waits for, and also the request for a module and the
    arrival of its response taken apart (other calls may run between the
    two), leave the registry as it is, only add to the requests already
    sent, and leave every key of the three caches in its cache.  The value
    under a key may be written again by a response that arrives late. *)
Theorem caches_keep_their_keys (choices : list nat) (document : TextDocument)
    (position : Position) (pending : PendingModule) (s : State) :
  keeps s (stateAfter (provideDefinition host remote document position) s) ∧
  keeps s (stateAfter (provideReferences host remote choices document position) s) ∧
  keeps s (stateAfter (provideHover host remote document position) s) ∧
  keeps s (stateAfter (maybeFetchModuleInfo host remote document) s) ∧
  keeps s (stateAfter (callMaybeFetchModuleInfo host remote document) s) ∧
  keeps s (stateAfter (receiveHaskellModule pending) s).
Proof.
  destruct (uninterrupted_calls_grow host remote choices document position s)
    as (H1 & H2 & H3 & H4).
  split; [apply grows_keeps, H1|]. split; [apply grows_keeps, H2|].
  split; [apply grows_keeps, H3|]. split; [apply grows_keeps, H4|].
  split.
  - unfold stateAfter. rewrite callMaybeFetchModuleInfo_run.
    destruct (isHaskellFile document); [|apply grows_keeps, grows_refl].
    destruct (_ !! uriPath document); [apply grows_keeps, grows_refl|].
    rewrite callFetchModuleInfo_run.
    destruct (lookupPackageInfo _ _ _); apply grows_keeps;
      [apply grows_sent | apply grows_refl].
  - unfold stateAfter. rewrite receiveHaskellModule_run.
    destruct (pendingData pending); [|apply grows_keeps, grows_refl].
    repeat split; try reflexivity; cbn.
    rewrite dom_insert_L. set_solver.
Qed.

End ModuleRequest.

Lemma module_requested_until_cached_witness :
  let open := callMaybeFetchModuleInfo exampleHost exampleRemote exampleDocument in
  let url :=
    "http://localhost:8080/files/pkg-1.0/.haskell-code-explorer/src/A.hs.json" in
  let pending :=
    {| pendingPath := "/work/pkg/src/A.hs"; pendingData := Some exampleModuleResponse |} in
  open initialState = (None, initialState) ∧
  sentBy open exampleOpenState = [url] ∧
  sentBy open (stateAfter open exampleOpenState) = [url] ∧
  result open exampleOpenState = Some pending ∧
  open (stateAfter (receivePending (Some pending)) (stateAfter open exampleOpenState)) =
    (None, stateAfter (receivePending (Some pending)) (stateAfter open exampleOpenState)).
Proof.
  cbn zeta.
  destruct (module_requested_until_cached exampleHost exampleRemote initialState
              exampleDocument examplePackageInfo exampleModuleResponse)
    as (H1 & _).
  destruct (module_requested_until_cached exampleHost exampleRemote exampleOpenState
              exampleDocument examplePackageInfo exampleModuleResponse)
    as (_ & H2).
  destruct (H2 eq_refl eq_refl eq_refl) as (Ha & _ & Hb & H3).
  destruct (H3 eq_refl) as (Hc & _ & Hd).
  split; [apply H1; right; right; reflexivity|].
  split; [exact Ha|]. split; [exact Hb|]. split; [exact Hc | exact Hd].
Defined.
